(** * Task manager: transport client, collection controller, derived views

    A shallow embedding of [src/api/tasksApi.js], [src/Components/TaskList.js]
    and the statistics component, with the properties of the task collection
    state machine stated and proved over it. *)

From Stdlib Require Import ZArith Ascii String List.
From Stdlib.Floats Require Import SpecFloat.
From stdpp Require Import base list strings gmap.

Open Scope string_scope.

(** ** JavaScript strings *)

Module JsString.

(** [String.prototype.includes]: the needle occurs at some offset of the
    receiver.  The empty needle occurs at offset 0 of every string. *)
Fixpoint includes (hay needle : string) : bool :=
  String.prefix needle hay ||
  match hay with
  | EmptyString => false
  | String _ rest => includes rest needle
  end.

(** The ASCII part of [String.prototype.toLowerCase]: [A]..[Z] go to
    [a]..[z], every other character is kept. *)
Definition lower_ascii (c : ascii) : ascii :=
  let n := nat_of_ascii c in
  if (65 <=? n)%nat && (n <=? 90)%nat then ascii_of_nat (n + 32) else c.

Fixpoint toLowerCase_ascii (s : string) : string :=
  match s with
  | EmptyString => EmptyString
  | String c rest => String (lower_ascii c) (toLowerCase_ascii rest)
  end.

(** Substring as a proposition: [needle] sits between some prefix and some
    suffix of [hay]. *)
Definition substring_of (needle hay : string) : Prop :=
  ∃ pre suf : string, hay = pre +:+ needle +:+ suf.

End JsString.

(** ** Data model *)

(** Identifiers come from the record store as JSON scalars; [===] on them is
    equality of the scalar (a number never equals a string). *)
Inductive TaskId : Type :=
  | IdNum (n : Z)
  | IdStr (s : string).

#[global] Instance TaskId_eq_dec : EqDecision TaskId.
Proof. solve_decision. Defined.

Record Task : Type := mkTask {
  id : TaskId;
  title : string;
  description : string;
  status : string;
  priority : string;
  createdAt : string
}.

#[global] Instance Task_eq_dec : EqDecision Task.
Proof. solve_decision. Defined.

(** Strict equality [a === b] on strings and on identifiers. *)
Definition str_eq (a b : string) : bool := bool_decide (a = b).
Definition id_eq (a b : TaskId) : bool := bool_decide (a = b).

(** JavaScript objects used as bags of string fields: the form payload, the
    [POST] body and the [PATCH] body. *)
Abbreviation JsObject := (gmap string string).

(** ** Numbers: IEEE-754 binary64, as every JavaScript [Number] *)

Module JsNumber.

Definition prec : Z := 53.
Definition emax : Z := 1024.

(** An integer as a [Number] (exact below 2^53). *)
Definition of_Z (z : Z) : spec_float := binary_normalize prec emax z 0 false.

Definition div (x y : spec_float) : spec_float := SFdiv prec emax x y.
Definition mul (x y : spec_float) : spec_float := SFmul prec emax x y.

(** [Math.round]: the integer nearest to [x], a tie going towards +∞;
    zeros, infinities and NaN are returned as they are, and a result of
    zero keeps the sign of [x]. *)
Definition Math_round (x : spec_float) : spec_float :=
  match x with
  | S754_finite s m e =>
      let sm := if s then Z.neg m else Z.pos m in
      let n := match e with
               | Z.neg k => (2 * sm + 2 ^ Z.pos k) / 2 ^ (Z.pos k + 1)
               | _ => sm * 2 ^ e
               end%Z in
      if (n =? 0)%Z then S754_zero s else binary_normalize prec emax n 0 false
  | _ => x
  end.

End JsNumber.

(** ** Effects: state, exceptions, and the browser around the code *)

(** What a [throw] carries: [new Error(message)], the [TypeError] of a
    rejected [fetch], the [SyntaxError] of [response.json()] on a body that
    is not JSON. *)
Inductive exn : Type :=
  | Error (message : string)
  | TypeError_fetch
  | SyntaxError_json.

(** A [fetch] [Response] whose JSON body, when it parses, has type [J]. *)
Record Response (J : Type) : Type := mkResponse {
  ok : bool;
  text : string;
  json : option J
}.
Arguments mkResponse {J} _ _ _.
Arguments ok {J} _.
Arguments text {J} _.
Arguments json {J} _.

Inductive Outcome (J : Type) : Type :=
  | NetworkFailure
  | Responded (response : Response J).
Arguments NetworkFailure {J}.
Arguments Responded {J} _.

(** The four requests of the wire contract. *)
Inductive Request : Type :=
  | GET_tasks
  | POST_tasks (body : JsObject)
  | PATCH_task (taskId : TaskId) (body : JsObject)
  | DELETE_task (taskId : TaskId).

Definition answer (req : Request) : Type :=
  match req with
  | GET_tasks => list Task
  | POST_tasks _ => Task
  | PATCH_task _ _ => Task
  | DELETE_task _ => unit
  end.

(** What the code does to the outside, in order. *)
Inductive Event : Type :=
  | Fetch (req : Request)
  | Confirm (message : string)
  | Alert (message : string)
  | ConsoleError (label : string) (err : exn).

(** The outside: the record store, the user at the confirmation prompt and
    the clock.  The clock is read by tick; a tick passes at every request. *)
Record Env : Type := mkEnv {
  remote : ∀ req : Request, Outcome (answer req);
  confirm_answer : string → bool;
  date_now : nat → string
}.

Record World (S : Type) : Type := mkWorld {
  st : S;
  log : list Event;
  clock : nat
}.
Arguments mkWorld {S} _ _ _.
Arguments st {S} _.
Arguments log {S} _.
Arguments clock {S} _.

Definition M (S A : Type) : Type := Env → World S → (exn + A) * World S.

Section Monad.
Context {S : Type}.

Definition ret {A} (a : A) : M S A := fun _ w => (inr a, w).

Definition throw {A} (e : exn) : M S A := fun _ w => (inl e, w).

Definition bind {A B} (m : M S A) (k : A → M S B) : M S B :=
  fun env w =>
    match m env w with
    | (inr a, w1) => k a env w1
    | (inl e, w1) => (inl e, w1)
    end.

(** [try { body } catch (err) { handler }] *)
Definition try_catch {A} (body : M S A) (handler : exn → M S A) : M S A :=
  fun env w =>
    match body env w with
    | (inl e, w1) => handler e env w1
    | done => done
    end.

(** [try { body } finally { cleanup }] *)
Definition try_finally {A} (body : M S A) (cleanup : M S unit) : M S A :=
  fun env w =>
    let '(r, w1) := body env w in
    match cleanup env w1 with
    | (inl e, w2) => (inl e, w2)
    | (inr _, w2) => (r, w2)
    end.

Definition get : M S S := fun _ w => (inr (st w), w).

(** A state setter called with an updater function. *)
Definition modify (f : S → S) : M S unit :=
  fun _ w => (inr tt, mkWorld (f (st w)) (log w) (clock w)).

Definition emit (ev : Event) : M S unit :=
  fun _ w => (inr tt, mkWorld (st w) (log w ++ [ev]) (clock w)).

(** [await fetch(...)]: the request goes out, a tick passes, and either the
    network fails or a response comes back. *)
Definition fetch (req : Request) : M S (Response (answer req)) :=
  fun env w =>
    let w1 := mkWorld (st w) (log w ++ [Fetch req]) (Datatypes.S (clock w)) in
    match remote env req with
    | NetworkFailure => (inl TypeError_fetch, w1)
    | Responded response => (inr response, w1)
    end.

(** [await response.text()] and [response.json()] *)
Definition response_text {J} (response : Response J) : M S string :=
  ret (text response).

Definition response_json {J} (response : Response J) : M S J :=
  match json response with
  | Some value => ret value
  | None => throw SyntaxError_json
  end.

Definition window_confirm (message : string) : M S bool :=
  fun env w =>
    (inr (confirm_answer env message),
     mkWorld (st w) (log w ++ [Confirm message]) (clock w)).

Definition alert (message : string) : M S unit := emit (Alert message).

Definition console_error (label : string) (err : exn) : M S unit :=
  emit (ConsoleError label err).

(** [new Date().toISOString()] *)
Definition new_Date_toISOString : M S string :=
  fun env w => (inr (date_now env (clock w)), w).

End Monad.

Declare Scope js_scope.
Delimit Scope js_scope with js.
Notation "'let*' x := c 'in' k" := (bind c (fun x => k))
  (at level 10, x name, c at level 100, k at level 200) : js_scope.
Notation "c >> k" := (bind c (fun _ => k))
  (at level 100, k at level 200, right associativity) : js_scope.
Open Scope js_scope.

(** [message || fallback] on strings: the empty string is falsy. *)
Definition or_default (message fallback : string) : string :=
  if str_eq message "" then fallback else message.

(** ** Transport client (tasksApi.js) *)

Module TasksApi.
Section Api.
Context {S : Type}.

Definition handleResponse {J} (response : Response J) : M S J :=
  if negb (ok response) then
    let* message := response_text response in
    throw (Error (or_default message "Request failed"))
  else response_json response.

Definition fetchTasks : M S (list Task) :=
  let* response := fetch GET_tasks in
  handleResponse response.

Definition createTask (taskData : JsObject) : M S Task :=
  let* response := fetch (POST_tasks taskData) in
  handleResponse response.

Definition updateTask (taskId : TaskId) (updates : JsObject) : M S Task :=
  let* response := fetch (PATCH_task taskId updates) in
  handleResponse response.

Definition deleteTask (taskId : TaskId) : M S bool :=
  let* response := fetch (DELETE_task taskId) in
  if negb (ok response) then
    let* message := response_text response in
    throw (Error (or_default message "Failed to delete task"))
  else ret true.

End Api.
End TasksApi.

(** ** Task collection controller (TaskList.js) *)

Module TaskList.

(** The component's [useState] cells. *)
Record State : Type := mkState {
  tasks : list Task;
  loading : bool;
  error : option string;
  showForm : bool;
  editingTask : option Task;
  filter : string;
  searchTerm : string
}.

Definition setTasks (f : list Task → list Task) : M State unit :=
  modify (fun s => mkState (f (tasks s)) (loading s) (error s) (showForm s)
                     (editingTask s) (filter s) (searchTerm s)).

Definition setLoading (b : bool) : M State unit :=
  modify (fun s => mkState (tasks s) b (error s) (showForm s)
                     (editingTask s) (filter s) (searchTerm s)).

Definition setError (e : option string) : M State unit :=
  modify (fun s => mkState (tasks s) (loading s) e (showForm s)
                     (editingTask s) (filter s) (searchTerm s)).

Definition setShowForm (b : bool) : M State unit :=
  modify (fun s => mkState (tasks s) (loading s) (error s) b
                     (editingTask s) (filter s) (searchTerm s)).

Definition setEditingTask (t : option Task) : M State unit :=
  modify (fun s => mkState (tasks s) (loading s) (error s) (showForm s)
                     t (filter s) (searchTerm s)).

Definition fetchTasks : M State unit :=
  try_finally
    (try_catch
       (setLoading true >>
        setError None >>
        let* apiTasks := TasksApi.fetchTasks in
        setTasks (fun _ => apiTasks))
       (fun err =>
          setError (Some "Failed to fetch tasks. Please try again.") >>
          console_error "Error fetching tasks:" err))
    (setLoading false).

Definition createTask (taskData : JsObject) : M State unit :=
  try_catch
    (setError None >>
     let* now := new_Date_toISOString in
     let payload : JsObject := <["createdAt" := now]> taskData in
     let* newTask := TasksApi.createTask payload in
     setTasks (fun prevTasks => newTask :: prevTasks) >>
     setShowForm false >>
     alert "Task created successfully!")
    (fun err =>
       setError (Some "Failed to create task. Please try again.") >>
       console_error "Error creating task:" err).

Definition updateTask (taskId : TaskId) (updatedData : JsObject)
  : M State unit :=
  try_catch
    (setError None >>
     let* updatedTask := TasksApi.updateTask taskId updatedData in
     setTasks (fun prevTasks =>
                 List.map (fun task =>
                             if id_eq (id task) taskId then updatedTask
                             else task)
                          prevTasks) >>
     setEditingTask None >>
     setShowForm false >>
     alert "Task updated successfully!")
    (fun err =>
       setError (Some "Failed to update task. Please try again.") >>
       console_error "Error updating task:" err).

Definition deleteTask (taskId : TaskId) : M State unit :=
  try_catch
    (setError None >>
     let* confirmed :=
       window_confirm "Are you sure you want to delete this task?" in
     if confirmed then
       TasksApi.deleteTask taskId >>
       setTasks (fun prevTasks =>
                   List.filter (fun task => negb (id_eq (id task) taskId))
                               prevTasks) >>
       alert "Task deleted successfully!"
     else ret tt)
    (fun err =>
       setError (Some "Failed to delete task. Please try again.") >>
       console_error "Error deleting task:" err).

(** [tasks.find(t => t.id === id)], then the update when a record was
    found ([if (task)]: every record is truthy). *)
Definition toggleTaskStatus (taskId : TaskId) : M State unit :=
  let* s := get in
  match List.find (fun t => id_eq (id t) taskId) (tasks s) with
  | Some task =>
      updateTask taskId
        {[ "status" := if str_eq (status task) "completed"
                       then "pending" else "completed" ]}
  | None => ret tt
  end.

(** *** Derived view: filter and search ([filteredTasks]) *)

Section FilteredView.

(** [String.prototype.toLowerCase].  The Unicode case mapping is a parameter
    of the view; [JsString.toLowerCase_ascii] is its ASCII instance. *)
Variable toLowerCase : string → string.

Definition matchesFilter (filter : string) (task : Task) : bool :=
  str_eq filter "all" || str_eq (status task) filter
                      || str_eq (priority task) filter.

Definition matchesSearch (searchTerm : string) (task : Task) : bool :=
  JsString.includes (toLowerCase (title task)) (toLowerCase searchTerm) ||
  JsString.includes (toLowerCase (description task)) (toLowerCase searchTerm).

Definition filteredTasks (tasks : list Task) (filter searchTerm : string)
  : list Task :=
  List.filter
    (fun task => matchesFilter filter task && matchesSearch searchTerm task)
    tasks.

End FilteredView.

End TaskList.

(** ** Statistics component *)

Module Stats.

Record StatsValue : Type := mkStats {
  total : Z;
  completed : Z;
  pending : Z;
  completionRate : spec_float
}.

Record State : Type := mkState {
  stats : StatsValue;
  loading : bool;
  error : option string
}.

Definition initial : State :=
  mkState (mkStats 0 0 0 (S754_zero false)) true None.

Definition setStats (v : StatsValue) : M State unit :=
  modify (fun s => mkState v (loading s) (error s)).

Definition setLoading (b : bool) : M State unit :=
  modify (fun s => mkState (stats s) b (error s)).

Definition setError (e : option string) : M State unit :=
  modify (fun s => mkState (stats s) (loading s) e).

Definition fetchStats : M State unit :=
  try_finally
    (try_catch
       (setError None >>
        let* tasks := TasksApi.fetchTasks in
        let total := Z.of_nat (length tasks) in
        let completed :=
          Z.of_nat (length (List.filter
                              (fun task => str_eq (status task) "completed")
                              tasks)) in
        let pending := (total - completed)%Z in
        let completionRate :=
          if (0 <? total)%Z
          then JsNumber.Math_round
                 (JsNumber.mul
                    (JsNumber.div (JsNumber.of_Z completed)
                                  (JsNumber.of_Z total))
                    (JsNumber.of_Z 100))
          else S754_zero false in
        setStats (mkStats total completed pending completionRate))
       (fun err =>
          console_error "Error fetching stats:" err >>
          setError (Some "Unable to load statistics. Please try again later.")))
    (setLoading false).

End Stats.

(** ** The list component around the controller (TaskList.js, JSX) *)

Module TaskListUI.

(** The [useState] initial values. *)
Definition initial : TaskList.State :=
  TaskList.mkState [] true None false None "all" "".

Definition setFilter (v : string) : M TaskList.State unit :=
  modify (fun s => TaskList.mkState (TaskList.tasks s) (TaskList.loading s)
                     (TaskList.error s) (TaskList.showForm s)
                     (TaskList.editingTask s) v (TaskList.searchTerm s)).

Definition setSearchTerm (v : string) : M TaskList.State unit :=
  modify (fun s => TaskList.mkState (TaskList.tasks s) (TaskList.loading s)
                     (TaskList.error s) (TaskList.showForm s)
                     (TaskList.editingTask s) (TaskList.filter s) v).

(** [useEffect(() => { fetchTasks(); }, [])] *)
Definition mount : M TaskList.State unit := TaskList.fetchTasks.

(** The "Add New Task" button: [onClick={() => setShowForm(true)}] *)
Definition onAddNewTask : M TaskList.State unit := TaskList.setShowForm true.

(** The error alert: [onClose={() => setError(null)}] *)
Definition onCloseError : M TaskList.State unit := TaskList.setError None.

(** The form: [onSubmit={editingTask ? (data) => updateTask(editingTask.id,
    data) : createTask}] *)
Definition onSubmit (data : JsObject) : M TaskList.State unit :=
  let* s := get in
  match TaskList.editingTask s with
  | Some editing => TaskList.updateTask (id editing) data
  | None => TaskList.createTask data
  end.

(** The form: [onCancel={() => { setShowForm(false); setEditingTask(null); }}] *)
Definition onCancel : M TaskList.State unit :=
  TaskList.setShowForm false >> TaskList.setEditingTask None.

(** A card: [onEdit], [onDelete], [onToggleStatus] *)
Definition onEdit (task : Task) : M TaskList.State unit :=
  TaskList.setEditingTask (Some task) >> TaskList.setShowForm true.

Definition onDelete (task : Task) : M TaskList.State unit :=
  TaskList.deleteTask (id task).

Definition onToggleStatus (task : Task) : M TaskList.State unit :=
  TaskList.toggleTaskStatus (id task).

(** Everything the user, or the mounting of the component, can set off. *)
Inductive Action : Type :=
  | Mount
  | AddNewTask
  | CloseError
  | SetFilter (v : string)
  | SetSearchTerm (v : string)
  | Submit (data : JsObject)
  | Cancel
  | Edit (task : Task)
  | Delete (task : Task)
  | ToggleStatus (task : Task).

Definition handle (a : Action) : M TaskList.State unit :=
  match a with
  | Mount => mount
  | AddNewTask => onAddNewTask
  | CloseError => onCloseError
  | SetFilter v => setFilter v
  | SetSearchTerm v => setSearchTerm v
  | Submit data => onSubmit data
  | Cancel => onCancel
  | Edit task => onEdit task
  | Delete task => onDelete task
  | ToggleStatus task => onToggleStatus task
  end.


(** What is on the page. *)
Inductive Body : Type :=
  | LoadingSpinner
  | NoTasksFound
  | TaskGrid (cards : list Task).

Record View : Type := mkView {
  errorAlert : option string;
  taskForm : option (option Task);
  body : Body;
  showing : nat * nat
}.

Section Render.

Variable toLowerCase : string → string.

Definition render (s : TaskList.State) : View :=
  let filteredTasks :=
    TaskList.filteredTasks toLowerCase (TaskList.tasks s) (TaskList.filter s)
                           (TaskList.searchTerm s) in
  mkView
    (match TaskList.error s with
     | Some message => if str_eq message "" then None else Some message
     | None => None
     end)
    (if TaskList.showForm s then Some (TaskList.editingTask s) else None)
    (if TaskList.loading s then LoadingSpinner
     else if (length filteredTasks =? 0)%nat then NoTasksFound
          else TaskGrid filteredTasks)
    (length filteredTasks, length (TaskList.tasks s)).

End Render.

End TaskListUI.

(** ** The statistics component's page *)

Module StatsUI.

(** [useEffect(() => { ...; fetchStats(); }, [])] *)
Definition mount : M Stats.State unit := Stats.fetchStats.

Inductive View : Type :=
  | Spinner
  | ErrorAlert (message : string)
  | Cards (stats : Stats.StatsValue).

Definition render (s : Stats.State) : View :=
  if Stats.loading s then Spinner
  else match Stats.error s with
       | Some message =>
           if str_eq message "" then Cards (Stats.stats s)
           else ErrorAlert message
       | None => Cards (Stats.stats s)
       end.

End StatsUI.

(** ** Reading the log *)

Definition requests (l : list Event) : list Request :=
  omap (fun ev => match ev with Fetch req => Some req | _ => None end) l.

(** The same world with another error on display. *)
Definition with_error (e : option string) (w : World TaskList.State)
  : World TaskList.State :=
  mkWorld (TaskList.mkState (TaskList.tasks (st w)) (TaskList.loading (st w))
             e (TaskList.showForm (st w)) (TaskList.editingTask (st w))
             (TaskList.filter (st w)) (TaskList.searchTerm (st w)))
          (log w) (clock w).

(** The test of the filter in [deleteTask]: [task.id !== id]. *)
Definition keeps_other_ids (taskId : TaskId) (task : Task) : bool :=
  negb (id_eq (id task) taskId).

(** ** What the specification says, for comparison with the code *)

Module Spec.

(** [round(completed / total * 100)] in exact arithmetic: the integer nearest
    to the quotient, the tie [k + 1/2] going to [k + 1]. *)
Definition completionRate (completed total : Z) : Z :=
  if (0 <? total)%Z then (200 * completed + total) / (2 * total) else 0.

(** The [RequestFailed] condition: the body text of the response as detail,
    or the default message when the body is empty. *)
Definition RequestFailed (body fallback : string) : exn :=
  Error (if decide (body = "") then fallback else body).

(** Case-insensitive containment, on the lower-cased strings. *)
Definition contains_ci (toLowerCase : string → string)
  (field searchTerm : string) : Prop :=
  JsString.substring_of (toLowerCase searchTerm) (toLowerCase field).

End Spec.

#[global] Instance spec_float_eq_dec : EqDecision spec_float.
Proof. solve_decision. Defined.

(** The percentage as the statistics component computes it, as a function
    of the two counts. *)
Definition js_percentage (completed total : Z) : spec_float :=
  if (0 <? total)%Z
  then JsNumber.Math_round
         (JsNumber.mul
            (JsNumber.div (JsNumber.of_Z completed) (JsNumber.of_Z total))
            (JsNumber.of_Z 100))
  else S754_zero false.

(** ** Worlds and sample data used in the statements below *)

(** The world right after [req] went out: one more log entry, one more
    tick, the state as it was. *)
Definition requested {S : Type} (req : Request) (w : World S) : World S :=
  mkWorld (st w) (log w ++ [Fetch req]) (Datatypes.S (clock w)).

Module Sample.

Definition buy_milk : Task :=
  mkTask (IdNum 1) "Buy Milk" "from the corner shop" "pending" "low"
         "2024-01-01T00:00:00.000Z".

Definition pay_rent : Task :=
  mkTask (IdNum 2) "Pay rent" "" "completed" "high"
         "2024-01-02T00:00:00.000Z".

Definition call_bob : Task :=
  mkTask (IdStr "a3f") "Call Bob" "about the invoice" "pending" "medium"
         "2024-01-03T00:00:00.000Z".

Definition three_tasks : list Task := [buy_milk; pay_rent; call_bob].

Definition iso (tick : nat) : string :=
  match tick with
  | O => "2024-02-01T10:00:00.000Z"
  | _ => "2024-02-01T10:00:01.000Z"
  end.

(** A store that is unreachable, and a user who declines. *)
Definition env_offline : Env :=
  mkEnv (fun req => NetworkFailure) (fun _ => false) iso.

(** A store that answers every request with [500] and the given body. *)
Definition env_refusing (body : string) : Env :=
  mkEnv (fun req => Responded (mkResponse false body None))
        (fun _ => true) iso.

(** A store that answers [200]: the list is [listed], a created or patched
    record comes back as [returned], a delete has an empty body. *)
Definition env_serving (listed : list Task) (returned : Task) : Env :=
  mkEnv (fun req =>
           match req return Outcome (answer req) with
           | GET_tasks => Responded (mkResponse true "" (Some listed))
           | POST_tasks _ => Responded (mkResponse true "" (Some returned))
           | PATCH_task _ _ => Responded (mkResponse true "" (Some returned))
           | DELETE_task _ => Responded (mkResponse true "" None)
           end)
        (fun _ => true) iso.

(** A store that answers [200] with a body that is not JSON. *)
Definition env_garbled : Env :=
  mkEnv (fun req => Responded (mkResponse true "<html>" None))
        (fun _ => true) iso.

(** Forty records with distinct ids, the first 23 of them completed. *)
Definition forty_tasks : list Task :=
  List.map (fun n : nat =>
              mkTask (IdNum (Z.of_nat n)) "task" ""
                     (if (n <? 23)%nat then "completed" else "pending")
                     "low" "2024-01-01T00:00:00.000Z")
           (seq 0 40).

(** Five records, two of them completed. *)
Definition five_tasks : list Task :=
  [buy_milk; pay_rent; call_bob;
   mkTask (IdNum 4) "Water plants" "" "completed" "low"
          "2024-01-04T00:00:00.000Z";
   mkTask (IdNum 5) "Book flights" "" "pending" "high"
          "2024-01-05T00:00:00.000Z"].

Definition state_of (l : list Task) (err : option string) : TaskList.State :=
  TaskList.mkState l false err false None "all" "".

Definition world_of (l : list Task) (err : option string)
  : World TaskList.State :=
  mkWorld (state_of l err) [] 0.

End Sample.

(** * Properties *)

(** ** Strings *)

Lemma prefix_app (needle hay : string) :
  String.prefix needle hay = true ↔ ∃ suf, hay = needle +:+ suf.
Proof.
  revert needle. induction hay as [|d hay IH]; intros [|c needle]; simpl.
  - split; [intros _; by exists "" | done].
  - split; [done | intros [suf Hsuf]; discriminate].
  - split; [intros _; by eexists | done].
  - destruct (Ascii.ascii_dec c d) as [->|Hne].
    + rewrite IH. split; intros [suf Hsuf]; exists suf.
      * by rewrite Hsuf.
      * by injection Hsuf.
    + split; [done | intros [suf Hsuf]]. injection Hsuf as Hcd _. by destruct Hne.
Qed.

Lemma includes_nil (needle : string) :
  JsString.includes "" needle = String.prefix needle "" || false.
Proof. reflexivity. Qed.

Lemma includes_cons (c : ascii) (hay needle : string) :
  JsString.includes (String c hay) needle =
  String.prefix needle (String c hay) || JsString.includes hay needle.
Proof. reflexivity. Qed.

Lemma includes_substring (hay needle : string) :
  JsString.includes hay needle = true ↔ JsString.substring_of needle hay.
Proof.
  unfold JsString.substring_of.
  induction hay as [|c hay IH].
  - rewrite includes_nil, orb_true_iff, prefix_app. split.
    + intros [[suf Hsuf]|?]; [|done]. by exists "", suf.
    + intros (pre & suf & Heq). left.
      destruct pre; [by exists suf | discriminate].
  - rewrite includes_cons, orb_true_iff, prefix_app, IH. split.
    + intros [[suf Hsuf]|(pre & suf & Heq)].
      * by exists "", suf.
      * exists (String c pre), suf. simpl. by rewrite Heq.
    + intros (pre & suf & Heq). destruct pre as [|d pre]; simpl in Heq.
      * left. by exists suf.
      * right. exists pre, suf. by injection Heq.
Qed.

Lemma includes_empty (hay : string) : JsString.includes hay "" = true.
Proof. by destruct hay. Qed.

Lemma str_eq_true (a b : string) : str_eq a b = true ↔ a = b.
Proof. unfold str_eq. by rewrite bool_decide_eq_true. Qed.

Lemma id_eq_true (a b : TaskId) : id_eq a b = true ↔ a = b.
Proof. unfold id_eq. by rewrite bool_decide_eq_true. Qed.

(** ** The filtered view *)

Lemma matchesFilter_true (filter : string) (t : Task) :
  TaskList.matchesFilter filter t = true ↔
  filter = "all" ∨ status t = filter ∨ priority t = filter.
Proof.
  unfold TaskList.matchesFilter.
  rewrite !orb_true_iff, !str_eq_true. tauto.
Qed.

Section FilteredViewFacts.

Variable toLowerCase : string → string.
Implicit Types (tasks : list Task) (filter searchTerm : string) (t : Task).

Lemma matchesSearch_true searchTerm t :
  TaskList.matchesSearch toLowerCase searchTerm t = true ↔
  Spec.contains_ci toLowerCase (title t) searchTerm ∨
  Spec.contains_ci toLowerCase (description t) searchTerm.
Proof.
  unfold TaskList.matchesSearch, Spec.contains_ci.
  by rewrite orb_true_iff, !includes_substring.
Qed.

Lemma elem_of_filteredTasks tasks filter searchTerm t :
  t ∈ TaskList.filteredTasks toLowerCase tasks filter searchTerm ↔
  t ∈ tasks ∧ TaskList.matchesFilter filter t = true
            ∧ TaskList.matchesSearch toLowerCase searchTerm t = true.
Proof.
  unfold TaskList.filteredTasks.
  rewrite !list_elem_of_In, filter_In, andb_true_iff. tauto.
Qed.

Lemma filteredTasks_sublist tasks filter searchTerm :
  TaskList.filteredTasks toLowerCase tasks filter searchTerm
    `sublist_of` tasks.
Proof.
  unfold TaskList.filteredTasks.
  induction tasks as [|t tasks IH]; simpl; [constructor|].
  destruct (_ && _); by constructor.
Qed.

(** With the selector ["all"] and an empty search the view is [tasks]
    itself. *)
Lemma filteredTasks_all_empty tasks :
  toLowerCase "" = "" →
  TaskList.filteredTasks toLowerCase tasks "all" "" = tasks.
Proof.
  intros Hempty. unfold TaskList.filteredTasks.
  induction tasks as [|t tasks IH]; [done|].
  cbn [List.filter]. rewrite IH.
  unfold TaskList.matchesSearch. by rewrite Hempty, !includes_empty.
Qed.

End FilteredViewFacts.

(** C2. A record is in the filtered view exactly when it is in [tasks], the
    filter is ["all"] or equals its status or its priority, and the
    lower-cased search string is a substring of its lower-cased title or
    description; when lower-casing the empty string gives the empty string,
    an empty search string lets through every record that passes the
    filter. *)
Theorem filteredTasks_membership
  (toLowerCase : string → string) (tasks : list Task)
  (filter searchTerm : string) :
  (∀ t : Task,
     t ∈ TaskList.filteredTasks toLowerCase tasks filter searchTerm ↔
     t ∈ tasks ∧
     (filter = "all" ∨ status t = filter ∨ priority t = filter) ∧
     (Spec.contains_ci toLowerCase (title t) searchTerm ∨
      Spec.contains_ci toLowerCase (description t) searchTerm)) ∧
  (toLowerCase "" = "" →
   ∀ t : Task,
     (TaskList.matchesSearch toLowerCase "" t = true) ∧
     (t ∈ TaskList.filteredTasks toLowerCase tasks filter "" ↔
      t ∈ tasks ∧
      (filter = "all" ∨ status t = filter ∨ priority t = filter))).
Proof.
  split.
  - intros t.
    by rewrite elem_of_filteredTasks, matchesFilter_true, matchesSearch_true.
  - intros Hempty t.
    assert (Hs : TaskList.matchesSearch toLowerCase "" t = true).
    { unfold TaskList.matchesSearch. by rewrite Hempty, !includes_empty. }
    split; [done|].
    rewrite elem_of_filteredTasks, matchesFilter_true, Hs. tauto.
Qed.

Lemma filteredTasks_membership_witness :
  JsString.toLowerCase_ascii "" = "" ∧
  Sample.buy_milk ∈ TaskList.filteredTasks JsString.toLowerCase_ascii
               [Sample.buy_milk] "all" "milk" ∧
  Sample.buy_milk ∈ TaskList.filteredTasks JsString.toLowerCase_ascii
               [Sample.buy_milk] "low" "".
Proof.
  split; [reflexivity|]. split.
  - apply (proj1 (filteredTasks_membership JsString.toLowerCase_ascii
                    [Sample.buy_milk] "all" "milk")).
    split; [by left|]. split; [by left|].
    left. by exists "buy ", "".
  - apply (proj2 (filteredTasks_membership JsString.toLowerCase_ascii
                    [Sample.buy_milk] "low" "") eq_refl Sample.buy_milk).
    split; [by left|]. right. by right.
Defined.

(** C10. The filtered view is a subsequence of [tasks]: its records come
    from [tasks] in their order, none is new, and none occurs more often
    than in [tasks] (so distinct records, and distinct ids, stay
    distinct). *)
Theorem filteredTasks_subsequence
  (toLowerCase : string → string) (tasks : list Task)
  (filter searchTerm : string) :
  let view := TaskList.filteredTasks toLowerCase tasks filter searchTerm in
  view `sublist_of` tasks ∧
  (∀ t, t ∈ view → t ∈ tasks) ∧
  (∀ t, (count_occ Task_eq_dec view t ≤ count_occ Task_eq_dec tasks t)%nat) ∧
  (NoDup (id <$> tasks) → NoDup (id <$> view)) ∧
  (length view ≤ length tasks)%nat.
Proof.
  intros view. pose proof (filteredTasks_sublist toLowerCase tasks filter
                             searchTerm) as Hsub. fold view in Hsub.
  split; [done|]. split; [|split; [|split]].
  - intros t. by apply sublist_subseteq.
  - intros t. clear -Hsub. induction Hsub; simpl; [lia| |].
    + destruct (Task_eq_dec x t); lia.
    + destruct (Task_eq_dec x t); lia.
  - intros Hnd. eapply sublist_NoDup; [exact Hnd | by apply fmap_sublist].
  - by apply sublist_length.
Qed.

(** ** Running the code *)

(** Unfolds the monad and the setters, so that a run becomes a case analysis
    on what the remote store and the user answer. *)
Ltac js_project :=
  cbn [ok text json negb fst snd st log clock
       TaskList.tasks TaskList.loading TaskList.error TaskList.showForm
       TaskList.editingTask TaskList.filter TaskList.searchTerm
       Stats.stats Stats.loading Stats.error] in *.

Ltac js_unfold :=
  cbv [TaskList.fetchTasks TaskList.createTask TaskList.updateTask
       TaskList.deleteTask TaskList.toggleTaskStatus
       TaskList.setTasks TaskList.setLoading TaskList.setError
       TaskList.setShowForm TaskList.setEditingTask
       Stats.fetchStats Stats.setStats Stats.setLoading Stats.setError
       TasksApi.fetchTasks TasksApi.createTask TasksApi.updateTask
       TasksApi.deleteTask TasksApi.handleResponse
       bind ret throw try_catch try_finally get modify emit fetch
       response_text response_json window_confirm alert console_error
       new_Date_toISOString] in *;
  js_project.

Ltac js_remote :=
  match goal with
  | |- context [remote ?env ?req] =>
      let r := fresh "response" in
      let o := fresh "Hremote" in
      destruct (remote env req) as [|r] eqn:o;
      [| destruct r as [[] ? []] ];
      js_project
  end.

(** The transport operations change nothing but the log and the clock, and
    what they return depends on the remote store alone. *)
Section Transport.

Context {S : Type}.
Implicit Types (env : Env) (w : World S).

Lemma api_fetchTasks_world env w :
  snd (TasksApi.fetchTasks env w) = requested GET_tasks w.
Proof. js_unfold. by js_remote. Qed.

Lemma api_createTask_world env w payload :
  snd (TasksApi.createTask payload env w) = requested (POST_tasks payload) w.
Proof. js_unfold. by js_remote. Qed.

Lemma api_updateTask_world env w taskId patch :
  snd (TasksApi.updateTask taskId patch env w)
  = requested (PATCH_task taskId patch) w.
Proof. js_unfold. by js_remote. Qed.

Lemma api_deleteTask_world env w taskId :
  snd (TasksApi.deleteTask taskId env w) = requested (DELETE_task taskId) w.
Proof. js_unfold. by js_remote. Qed.

End Transport.

Lemma api_reply_any_world {S1 S2 : Type} env (w1 : World S1) (w2 : World S2) :
  fst (TasksApi.fetchTasks env w1) = fst (TasksApi.fetchTasks env w2) ∧
  (∀ payload, fst (TasksApi.createTask payload env w1)
              = fst (TasksApi.createTask payload env w2)) ∧
  (∀ taskId patch, fst (TasksApi.updateTask taskId patch env w1)
                   = fst (TasksApi.updateTask taskId patch env w2)) ∧
  (∀ taskId, fst (TasksApi.deleteTask taskId env w1)
             = fst (TasksApi.deleteTask taskId env w2)).
Proof.
  repeat split; intros; js_unfold.
  - by js_remote.
  - by js_remote.
  - by js_remote.
  - by js_remote.
Qed.

(** ** The controller *)

Section Controller.

Implicit Types (env : Env) (w : World TaskList.State) (taskId : TaskId).

(** No operation of the controller lets an exception out. *)
Lemma controller_catches_everything env w :
  fst (TaskList.fetchTasks env w) = inr tt ∧
  (∀ taskData, fst (TaskList.createTask taskData env w) = inr tt) ∧
  (∀ taskId patch, fst (TaskList.updateTask taskId patch env w) = inr tt) ∧
  (∀ taskId, fst (TaskList.deleteTask taskId env w) = inr tt).
Proof.
  repeat split; intros; js_unfold.
  - by js_remote.
  - by js_remote.
  - by js_remote.
  - destruct (confirm_answer env _); [|done].
    by js_remote.
Qed.

Lemma find_first (f : Task → bool) (l : list Task) :
  match List.find f l with
  | Some t => ∃ i, l !! i = Some t ∧ f t = true ∧
                   ∀ j t', (j < i)%nat → l !! j = Some t' → f t' = false
  | None => ∀ t, t ∈ l → f t = false
  end.
Proof.
  induction l as [|x l IH]; simpl.
  - intros t Ht. by apply elem_of_nil in Ht.
  - destruct (f x) eqn:Hx.
    + exists 0%nat. repeat split; [done|]. intros j t' Hj. lia.
    + destruct (List.find f l) as [t|].
      * destruct IH as (i & Hi & Ht & Hfirst).
        exists (Datatypes.S i). repeat split; [done..|].
        intros [|j] t' Hj Hl; simpl in Hl; [congruence|].
        apply (Hfirst j); [lia | done].
      * intros t [->|Ht]%elem_of_cons; [done | by apply IH].
Qed.

End Controller.

(** C1, as amended.  When the user declines the confirmation, [deleteTask]
    issues no request and leaves [tasks] and every other state cell as they
    were, except that the surfaced error is reset to [null]; the only thing
    it does to the outside is to ask for the confirmation. *)
Theorem deleteTask_declined
  (env : Env) (w : World TaskList.State) (taskId : TaskId) :
  confirm_answer env "Are you sure you want to delete this task?" = false →
  let w' := snd (TaskList.deleteTask taskId env w) in
  fst (TaskList.deleteTask taskId env w) = inr tt ∧
  log w' =
    (log w ++ [Confirm "Are you sure you want to delete this task?"])%list ∧
  (∀ req, Fetch req ∈ log w' → Fetch req ∈ log w) ∧
  clock w' = clock w ∧
  TaskList.tasks (st w') = TaskList.tasks (st w) ∧
  TaskList.error (st w') = None ∧
  TaskList.loading (st w') = TaskList.loading (st w) ∧
  TaskList.showForm (st w') = TaskList.showForm (st w) ∧
  TaskList.editingTask (st w') = TaskList.editingTask (st w) ∧
  TaskList.filter (st w') = TaskList.filter (st w) ∧
  TaskList.searchTerm (st w') = TaskList.searchTerm (st w).
Proof.
  intros Hno. js_unfold. rewrite Hno. simpl. repeat split.
  intros req [Hin|Hin]%elem_of_app; [done|].
  apply list_elem_of_singleton in Hin. discriminate.
Qed.

Lemma deleteTask_declined_witness :
  let w := Sample.world_of Sample.three_tasks (Some "stale") in
  let w' := snd (TaskList.deleteTask (IdNum 1) Sample.env_offline w) in
  TaskList.tasks (st w') = Sample.three_tasks ∧
  TaskList.error (st w') = None ∧
  log w' = [Confirm "Are you sure you want to delete this task?"].
Proof.
  destruct (deleteTask_declined Sample.env_offline
              (Sample.world_of Sample.three_tasks (Some "stale"))
              (IdNum 1) eq_refl)
    as (_ & Hlog & _ & _ & Htasks & Herr & _).
  exact (conj Htasks (conj Herr Hlog)).
Defined.

(** C1, as stated, fails: with an error on display, a declined delete
    changes the state, because the error is cleared before the question is
    asked. *)
Lemma deleteTask_declined_changes_state :
  let env := Sample.env_offline in
  let w := Sample.world_of Sample.three_tasks
             (Some "Failed to fetch tasks. Please try again.") in
  confirm_answer env "Are you sure you want to delete this task?" = false ∧
  TaskList.error (st w) =
    Some "Failed to fetch tasks. Please try again." ∧
  TaskList.error (st (snd (TaskList.deleteTask (IdNum 1) env w))) = None ∧
  st (snd (TaskList.deleteTask (IdNum 1) env w)) ≠ st w.
Proof. by repeat split. Qed.

Lemma replace_by_id_lookup (taskId : TaskId) (updatedTask : Task)
  (l : list Task) (i : nat) (task : Task) :
  l !! i = Some task →
  List.map (fun t => if id_eq (id t) taskId then updatedTask else t) l !! i
  = Some (if decide (id task = taskId) then updatedTask else task).
Proof.
  intros Hi. change (List.map ?f l) with (f <$> l).
  rewrite list_lookup_fmap, Hi. simpl. unfold id_eq.
  by rewrite (bool_decide_decide (id task = taskId)); destruct (decide _).
Qed.

Lemma replace_by_id_insert (taskId : TaskId) (updatedTask : Task)
  (l : list Task) (i : nat) (task : Task) :
  NoDup (id <$> l) → l !! i = Some task → id task = taskId →
  List.map (fun t => if id_eq (id t) taskId then updatedTask else t) l
  = <[i := updatedTask]> l.
Proof.
  intros Hnd Hi Hid. apply list_eq. intros j.
  destruct (l !! j) as [t|] eqn:Hj.
  - rewrite (replace_by_id_lookup _ _ _ _ _ Hj).
    destruct (decide (i = j)) as [<-|Hne].
    + rewrite list_lookup_insert_eq by by eapply lookup_lt_Some.
      assert (t = task) as -> by congruence. by rewrite decide_True.
    + rewrite list_lookup_insert_ne, Hj by done.
      rewrite decide_False; [done|]. intros Ht. apply Hne.
      eapply (NoDup_lookup (id <$> l)); [done| |].
      * by rewrite list_lookup_fmap, Hi; simpl; rewrite Hid.
      * by rewrite list_lookup_fmap, Hj; simpl; rewrite Ht.
  - change (List.map ?f l) with (f <$> l).
    rewrite list_lookup_fmap, Hj. simpl. symmetry.
    apply lookup_ge_None. rewrite length_insert. by apply lookup_ge_None.
Qed.

(** C4. After [updateTask]: when the transport call succeeds, the new
    [tasks] is the old one with every record of the given id replaced by
    the record the server returned; the length and all positions are kept,
    records of another id are the same, and when ids are unique exactly the
    one matching position is overwritten.  When the transport call fails,
    [tasks] is the old one. *)
Theorem updateTask_replaces_matching
  (env : Env) (w : World TaskList.State) (taskId : TaskId)
  (patch : JsObject) :
  let before := TaskList.tasks (st w) in
  let after :=
    TaskList.tasks (st (snd (TaskList.updateTask taskId patch env w))) in
  match fst (TasksApi.updateTask taskId patch env w) with
  | inr updatedTask =>
      length after = length before ∧
      (∀ i task, before !! i = Some task →
         after !! i =
           Some (if decide (id task = taskId) then updatedTask else task)) ∧
      (∀ i task, NoDup (id <$> before) → before !! i = Some task →
         id task = taskId → after = <[i := updatedTask]> before)
  | inl _ => after = before
  end.
Proof.
  js_unfold. js_remote; try done.
  repeat split.
  - by rewrite length_map.
  - intros i task Hi. by apply replace_by_id_lookup.
  - intros i task Hnd Hi Hid. by eapply replace_by_id_insert.
Qed.

Lemma updateTask_replaces_matching_witness :
  let done := mkTask (IdNum 1) "Buy Milk" "from the corner shop"
                "completed" "low" "2024-01-01T00:00:00.000Z" in
  let w := Sample.world_of Sample.three_tasks None in
  TaskList.tasks
    (st (snd (TaskList.updateTask (IdNum 1) {[ "status" := "completed" ]}
                (Sample.env_serving [] done) w)))
  = [done; Sample.pay_rent; Sample.call_bob].
Proof.
  intros done w.
  pose proof (updateTask_replaces_matching (Sample.env_serving [] done) w
                (IdNum 1) {[ "status" := "completed" ]}) as H.
  destruct H as (_ & _ & H).
  apply (H 0%nat Sample.buy_milk); [|reflexivity..].
  apply (bool_decide_unpack _). vm_compute. exact I.
Defined.

(** C5. [createTask] stamps the payload with the time read when it is
    called, keeps the submitted fields, and sends that payload before a
    tick passes.  When the transport call succeeds the record the server
    returned is at index 0 of [tasks] and the earlier records follow
    unchanged; when it fails [tasks] is as before and the error is set. *)
Theorem createTask_prepends
  (env : Env) (w : World TaskList.State) (taskData : JsObject) :
  let now := date_now env (clock w) in
  let payload : JsObject := <["createdAt" := now]> taskData in
  let w' := snd (TaskList.createTask taskData env w) in
  payload !! "createdAt" = Some now ∧
  (∀ k, k ≠ "createdAt" → payload !! k = taskData !! k) ∧
  (∃ rest, log w' = (log w ++ Fetch (POST_tasks payload) :: rest)%list) ∧
  clock w' = Datatypes.S (clock w) ∧
  match fst (TasksApi.createTask payload env w) with
  | inr newTask =>
      TaskList.tasks (st w') = newTask :: TaskList.tasks (st w) ∧
      TaskList.tasks (st w') !! 0%nat = Some newTask ∧
      (∀ i, TaskList.tasks (st w') !! Datatypes.S i
            = TaskList.tasks (st w) !! i) ∧
      TaskList.error (st w') = None
  | inl _ =>
      TaskList.tasks (st w') = TaskList.tasks (st w) ∧
      TaskList.error (st w') =
        Some "Failed to create task. Please try again." ∧
      TaskList.error (st w') ≠ None
  end.
Proof.
  intros now payload. split; [apply lookup_insert_eq|].
  split; [intros k Hk; by apply lookup_insert_ne|].
  subst now payload. js_unfold.
  js_remote; (split; [eexists; by rewrite <- ?app_assoc|]); by repeat split.
Qed.

(** C7. After [fetchTasks]: when the transport call succeeds [tasks] is the
    fetched list, whatever it was before; when it fails [tasks] is what it
    was, nothing of a response is merged in, and the error is set.  Either
    way the loading flag is off. *)
Theorem fetchTasks_refresh (env : Env) (w : World TaskList.State) :
  let w' := snd (TaskList.fetchTasks env w) in
  TaskList.loading (st w') = false ∧
  match fst (TasksApi.fetchTasks env w) with
  | inr apiTasks =>
      TaskList.tasks (st w') = apiTasks ∧ TaskList.error (st w') = None
  | inl _ =>
      TaskList.tasks (st w') = TaskList.tasks (st w) ∧
      TaskList.error (st w') =
        Some "Failed to fetch tasks. Please try again."
  end.
Proof. js_unfold. by js_remote. Qed.

(** *** Runs on sample data: both outcomes of each operation occur *)

Example createTask_success_run :
  let data : JsObject :=
    {[ "title" := "X"; "description" := "Y";
       "status" := "pending"; "priority" := "low" ]} in
  let w' := snd (TaskList.createTask data
                   (Sample.env_serving [] Sample.call_bob)
                   (Sample.world_of [Sample.buy_milk; Sample.pay_rent] None)) in
  TaskList.tasks (st w')
  = [Sample.call_bob; Sample.buy_milk; Sample.pay_rent] ∧
  log w' = [Fetch (POST_tasks
                     (<["createdAt" := "2024-02-01T10:00:00.000Z"]> data));
            Alert "Task created successfully!"].
Proof. by vm_compute. Qed.

Example createTask_failure_run :
  let w' := snd (TaskList.createTask {[ "title" := "X" ]}
                   (Sample.env_refusing "Internal Server Error")
                   (Sample.world_of Sample.three_tasks None)) in
  TaskList.tasks (st w') = Sample.three_tasks ∧
  TaskList.error (st w') = Some "Failed to create task. Please try again." ∧
  List.last (log w') (Alert "")
  = ConsoleError "Error creating task:" (Error "Internal Server Error").
Proof. by vm_compute. Qed.

Example updateTask_failure_run :
  let w' := snd (TaskList.updateTask (IdNum 1) {[ "status" := "completed" ]}
                   Sample.env_offline
                   (Sample.world_of Sample.three_tasks None)) in
  TaskList.tasks (st w') = Sample.three_tasks ∧
  TaskList.error (st w') = Some "Failed to update task. Please try again.".
Proof. by vm_compute. Qed.

Example fetchTasks_success_run :
  let w' := snd (TaskList.fetchTasks
                   (Sample.env_serving Sample.three_tasks Sample.buy_milk)
                   (Sample.world_of [Sample.call_bob] (Some "stale"))) in
  st w' = Sample.state_of Sample.three_tasks None.
Proof. by vm_compute. Qed.

Example fetchTasks_failure_run :
  let w' := snd (TaskList.fetchTasks Sample.env_garbled
                   (Sample.world_of [Sample.call_bob] None)) in
  st w' = Sample.state_of [Sample.call_bob]
            (Some "Failed to fetch tasks. Please try again.").
Proof. by vm_compute. Qed.

Example deleteTask_confirmed_run :
  let w' := snd (TaskList.deleteTask (IdNum 2)
                   (Sample.env_serving [] Sample.buy_milk)
                   (Sample.world_of Sample.three_tasks None)) in
  TaskList.tasks (st w') = [Sample.buy_milk; Sample.call_bob] ∧
  log w' = [Confirm "Are you sure you want to delete this task?";
            Fetch (DELETE_task (IdNum 2));
            Alert "Task deleted successfully!"].
Proof. by vm_compute. Qed.

Lemma updateTask_requests (env : Env) (w : World TaskList.State)
  (taskId : TaskId) (patch : JsObject) :
  ∃ rest, log (snd (TaskList.updateTask taskId patch env w))
          = (log w ++ Fetch (PATCH_task taskId patch) :: rest)%list.
Proof. js_unfold. js_remote; eexists; by rewrite <- ?app_assoc. Qed.

(** C6. [toggleTaskStatus] takes the first record of [tasks] with the given
    id and runs [updateTask] on that id with the one-field patch that turns
    ["completed"] into ["pending"] and ["pending"] into ["completed"]; the
    [PATCH] request with that patch goes out.  When no record has the id,
    nothing happens at all: no request, no error, the world is as it was. *)
Theorem toggleTaskStatus_flips
  (env : Env) (w : World TaskList.State) (taskId : TaskId) :
  let current := TaskList.tasks (st w) in
  (∀ (i : nat) (task : Task),
     current !! i = Some task → id task = taskId →
     (∀ j t', (j < i)%nat → current !! j = Some t' → id t' ≠ taskId) →
     let patch : JsObject :=
       {[ "status" := if decide (status task = "completed")
                      then "pending" else "completed" ]} in
     TaskList.toggleTaskStatus taskId env w
       = TaskList.updateTask taskId patch env w ∧
     (∃ rest, log (snd (TaskList.toggleTaskStatus taskId env w))
              = (log w ++ Fetch (PATCH_task taskId patch) :: rest)%list) ∧
     (status task = "completed" → patch = {[ "status" := "pending" ]}) ∧
     (status task = "pending" → patch = {[ "status" := "completed" ]})) ∧
  ((∀ task, task ∈ current → id task ≠ taskId) →
   TaskList.toggleTaskStatus taskId env w = (inr tt, w)).
Proof.
  intros current.
  pose proof (find_first (fun t => id_eq (id t) taskId) current) as Hfind.
  unfold TaskList.toggleTaskStatus, bind, get, ret. cbn [st]. fold current.
  destruct (List.find _ current) as [found|]; split.
  - intros i task Hi Hid Hfirst.
    destruct Hfind as (i0 & Hi0 & Hid0%id_eq_true & Hfirst0).
    assert (i0 = i) as ->.
    { destruct (Nat.lt_trichotomy i0 i) as [Hlt|[Heq|Hgt]]; [|done|].
      - by destruct (Hfirst i0 found Hlt Hi0).
      - pose proof (Hfirst0 i task Hgt Hi) as Hno.
        apply id_eq_true in Hid. congruence. }
    assert (found = task) as -> by congruence.
    unfold str_eq. rewrite (bool_decide_decide (status task = "completed")).
    destruct (decide (status task = "completed")) as [Hc|Hc];
      (split; [done|]); (split; [apply updateTask_requests|]);
      split; intros Hs; try done; rewrite Hs in Hc; done.
  - intros Hnone. destruct Hfind as (i0 & Hi0 & Hid0%id_eq_true & _).
    destruct (Hnone found); [by eapply list_elem_of_lookup_2 | done].
  - intros i task Hi Hid _. apply id_eq_true in Hid.
    rewrite Hfind in Hid; [done | by eapply list_elem_of_lookup_2].
  - done.
Qed.

Lemma toggleTaskStatus_flips_witness :
  let w := Sample.world_of Sample.three_tasks None in
  let env := Sample.env_serving [] Sample.pay_rent in
  (∃ rest, log (snd (TaskList.toggleTaskStatus (IdNum 2) env w))
           = (Fetch (PATCH_task (IdNum 2) {[ "status" := "pending" ]})
              :: rest)) ∧
  TaskList.toggleTaskStatus (IdNum 7) env w = (inr tt, w).
Proof.
  intros w env.
  destruct (toggleTaskStatus_flips env w (IdNum 2)) as [Hfound _].
  destruct (toggleTaskStatus_flips env w (IdNum 7)) as [_ Hmissing].
  split.
  - apply (Hfound 1%nat Sample.pay_rent eq_refl eq_refl).
    intros [|[|j]] t' Hj Ht'; [|lia..]. by injection Ht' as <-.
  - apply Hmissing. intros task Hin.
    apply (bool_decide_unpack _).
    revert task Hin. apply Forall_forall. apply (bool_decide_unpack _).
    vm_compute. exact I.
Defined.

(** ** The transport client *)

Lemma or_default_decide (message fallback : string) :
  or_default message fallback
  = if decide (message = "") then fallback else message.
Proof.
  unfold or_default, str_eq.
  by rewrite (bool_decide_decide (message = "")); destruct (decide _).
Qed.

(** C8, as amended.  On a response that is not a success, each of the four
    transport operations raises [RequestFailed] with the body text as
    detail, or with its default message when the body is empty.  On a
    success response [deleteTask] returns [true] and the other three return
    the parsed body; they raise only when that body is not JSON, and then a
    syntax error, not [RequestFailed]. *)
Theorem transport_replies {S : Type} (env : Env) (w : World S) :
  (∀ r, remote env GET_tasks = Responded r →
     (ok r = false →
      fst (TasksApi.fetchTasks env w)
      = inl (Spec.RequestFailed (text r) "Request failed")) ∧
     (ok r = true →
      fst (TasksApi.fetchTasks env w)
      = match json r with Some v => inr v | None => inl SyntaxError_json end))
  ∧
  (∀ payload r, remote env (POST_tasks payload) = Responded r →
     (ok r = false →
      fst (TasksApi.createTask payload env w)
      = inl (Spec.RequestFailed (text r) "Request failed")) ∧
     (ok r = true →
      fst (TasksApi.createTask payload env w)
      = match json r with Some v => inr v | None => inl SyntaxError_json end))
  ∧
  (∀ taskId patch r, remote env (PATCH_task taskId patch) = Responded r →
     (ok r = false →
      fst (TasksApi.updateTask taskId patch env w)
      = inl (Spec.RequestFailed (text r) "Request failed")) ∧
     (ok r = true →
      fst (TasksApi.updateTask taskId patch env w)
      = match json r with Some v => inr v | None => inl SyntaxError_json end))
  ∧
  (∀ taskId r, remote env (DELETE_task taskId) = Responded r →
     (ok r = false →
      fst (TasksApi.deleteTask taskId env w)
      = inl (Spec.RequestFailed (text r) "Failed to delete task")) ∧
     (ok r = true → fst (TasksApi.deleteTask taskId env w) = inr true)).
Proof.
  unfold Spec.RequestFailed.
  repeat split; intros; js_unfold;
    match goal with H : remote _ _ = _ |- _ => rewrite H end;
    destruct r as [? body parsed]; js_project; subst; js_project;
    rewrite ?or_default_decide; try done; by destruct parsed.
Qed.

Lemma transport_replies_witness :
  fst (TasksApi.fetchTasks (Sample.env_refusing "db locked")
         (Sample.world_of [] None)) = inl (Error "db locked") ∧
  fst (TasksApi.deleteTask (IdNum 1) (Sample.env_refusing "")
         (Sample.world_of [] None)) = inl (Error "Failed to delete task") ∧
  fst (TasksApi.fetchTasks (Sample.env_serving Sample.three_tasks
                              Sample.buy_milk)
         (Sample.world_of [] None)) = inr Sample.three_tasks.
Proof.
  split; [|split].
  - apply (proj1 (transport_replies (Sample.env_refusing "db locked")
                    (Sample.world_of [] None)) _ eq_refl).
    reflexivity.
  - apply (proj2 (proj2 (proj2 (transport_replies (Sample.env_refusing "")
                                  (Sample.world_of [] None))))
             (IdNum 1) _ eq_refl).
    reflexivity.
  - apply (proj1 (transport_replies
                    (Sample.env_serving Sample.three_tasks Sample.buy_milk)
                    (Sample.world_of [] None)) _ eq_refl).
    reflexivity.
Defined.

(** C8, as stated, fails: a success response whose body is not JSON makes
    the list operation raise. *)
Lemma success_response_can_raise :
  let response : Response (list Task) := mkResponse true "<html>" None in
  remote Sample.env_garbled GET_tasks = Responded response ∧
  ok response = true ∧
  fst (TasksApi.fetchTasks Sample.env_garbled (Sample.world_of [] None))
  = inl SyntaxError_json.
Proof. by repeat split. Qed.

(** C9. The transport [deleteTask] never returns [false]: on a success
    response it returns [true], and on any other outcome it raises. *)
Theorem api_deleteTask_true_or_raise
  {S : Type} (env : Env) (w : World S) (taskId : TaskId) :
  fst (TasksApi.deleteTask taskId env w) ≠ inr false ∧
  match remote env (DELETE_task taskId) with
  | Responded r =>
      if ok r then fst (TasksApi.deleteTask taskId env w) = inr true
      else ∃ e, fst (TasksApi.deleteTask taskId env w) = inl e
  | NetworkFailure => ∃ e, fst (TasksApi.deleteTask taskId env w) = inl e
  end.
Proof. js_unfold. js_remote; split; by eauto. Qed.

(** ** The statistics component *)

Section Statistics.

Implicit Types (env : Env) (w : World Stats.State) (tasks : list Task).

(** What [fetchStats] stores when the list arrives: the two counts, their
    difference, and the percentage computed from the counts. *)
Lemma fetchStats_success env w tasks :
  fst (TasksApi.fetchTasks env w) = inr tasks →
  let total := Z.of_nat (length tasks) in
  let completed :=
    Z.of_nat (length (List.filter
                        (fun task => str_eq (status task) "completed")
                        tasks)) in
  Stats.stats (st (snd (Stats.fetchStats env w)))
  = Stats.mkStats total completed (total - completed)
      (js_percentage completed total).
Proof. js_unfold. js_remote; intros Hreply; by simplify_eq. Qed.

Lemma fetchStats_failure env w e :
  fst (TasksApi.fetchTasks env w) = inl e →
  Stats.stats (st (snd (Stats.fetchStats env w))) = Stats.stats (st w) ∧
  Stats.error (st (snd (Stats.fetchStats env w)))
  = Some "Unable to load statistics. Please try again later.".
Proof. js_unfold. js_remote; intros Hreply; by simplify_eq. Qed.

Lemma completed_le_total tasks :
  (length (List.filter (fun task => str_eq (status task) "completed") tasks)
   ≤ length tasks)%nat.
Proof. apply filter_length_le. Qed.

(** An empty collection: no division, everything is zero. *)
Lemma fetchStats_empty env w :
  fst (TasksApi.fetchTasks env w) = inr [] →
  Stats.stats (st (snd (Stats.fetchStats env w)))
  = Stats.mkStats 0 0 0 (JsNumber.of_Z 0).
Proof. intros H. by rewrite (fetchStats_success _ _ _ H). Qed.

(** Five tasks, two of them completed. *)
Lemma fetchStats_five_two :
  Stats.stats
    (st (snd (Stats.fetchStats
                (Sample.env_serving Sample.five_tasks Sample.buy_milk)
                (mkWorld Stats.initial [] 0))))
  = Stats.mkStats 5 2 3 (JsNumber.of_Z 40).
Proof. by vm_compute. Qed.

(** Up to 39 tasks the computed percentage is the exactly rounded one. *)
Lemma js_percentage_exact_below_40 (completed total : Z) :
  (0 ≤ completed ≤ total)%Z → (total < 40)%Z →
  js_percentage completed total
  = JsNumber.of_Z (Spec.completionRate completed total).
Proof.
  intros [Hc Hct] Ht.
  assert (Hall : List.forallb
            (fun t => List.forallb
               (fun c => bool_decide
                           (js_percentage (Z.of_nat c) (Z.of_nat t)
                            = JsNumber.of_Z
                                (Spec.completionRate (Z.of_nat c)
                                                     (Z.of_nat t))))
               (seq 0 (Datatypes.S t)))
            (seq 0 40) = true) by (vm_compute; reflexivity).
  rewrite forallb_forall in Hall.
  specialize (Hall (Z.to_nat total)).
  rewrite forallb_forall in Hall.
  specialize (Hall ltac:(apply in_seq; lia) (Z.to_nat completed)
                   ltac:(apply in_seq; lia)).
  apply bool_decide_eq_true in Hall.
  by rewrite !Z2Nat.id in Hall by lia.
Qed.

End Statistics.

(** C3, at the input where the code departs from it.  With 40 tasks of
    which 23 are completed the component stores [total = 40],
    [completed = 23], [pending = 17] and a completion rate of 57, while
    23 / 40 * 100 is 57.5, which rounds to 58: the quotient 23/40 is not a
    binary fraction, and its double times 100 falls just below 57.5. *)
Theorem fetchStats_rate_23_of_40 :
  let env := Sample.env_serving Sample.forty_tasks Sample.buy_milk in
  let s' := st (snd (Stats.fetchStats env (mkWorld Stats.initial [] 0))) in
  Stats.total (Stats.stats s') = 40%Z ∧
  Stats.completed (Stats.stats s') = 23%Z ∧
  Stats.pending (Stats.stats s') = 17%Z ∧
  Stats.completionRate (Stats.stats s') = JsNumber.of_Z 57 ∧
  JsNumber.mul (JsNumber.div (JsNumber.of_Z 23) (JsNumber.of_Z 40))
               (JsNumber.of_Z 100)
  = S754_finite false 8092405580431359 (-47) ∧
  Spec.completionRate 23 40 = 58%Z ∧
  JsNumber.of_Z 57 ≠ JsNumber.of_Z 58.
Proof. by vm_compute. Qed.

(** * Further properties of the code *)

Ltac ui_unfold :=
  cbv [TaskListUI.handle TaskListUI.mount TaskListUI.onAddNewTask
       TaskListUI.onCloseError TaskListUI.onSubmit TaskListUI.onCancel
       TaskListUI.onEdit TaskListUI.onDelete TaskListUI.onToggleStatus
       TaskListUI.setFilter TaskListUI.setSearchTerm StatsUI.mount] in *;
  js_unfold.

(** ** Deleting *)

Lemma keeps_other_ids_true (taskId : TaskId) (task : Task) :
  keeps_other_ids taskId task = true ↔ id task ≠ taskId.
Proof.
  unfold keeps_other_ids. rewrite negb_true_iff.
  rewrite <- id_eq_true. by destruct (id_eq _ _).
Qed.

Lemma remove_id_elem_of (taskId : TaskId) (l : list Task) (t : Task) :
  t ∈ List.filter (keeps_other_ids taskId) l ↔ t ∈ l ∧ id t ≠ taskId.
Proof.
  by rewrite list_elem_of_In, filter_In, keeps_other_ids_true,
       <- list_elem_of_In.
Qed.

Lemma filter_all_true {A} (f : A → bool) (l : list A) :
  (∀ x, x ∈ l → f x = true) → List.filter f l = l.
Proof.
  induction l as [|x l IH]; intros Hall; [done|]. simpl.
  rewrite (Hall x) by by left. f_equal. apply IH.
  intros y Hy. apply Hall. by right.
Qed.

Lemma filter_sublist {A} (f : A → bool) (l : list A) :
  List.filter f l `sublist_of` l.
Proof.
  induction l as [|x l IH]; simpl; [constructor|].
  destruct (f x); by constructor.
Qed.

Lemma remove_id_length (taskId : TaskId) (l : list Task) :
  NoDup (id <$> l) → (∃ t, t ∈ l ∧ id t = taskId) →
  length l = Datatypes.S (length (List.filter (keeps_other_ids taskId) l)).
Proof.
  induction l as [|x l IH]; intros Hnd (t & Ht & Hid).
  - by apply elem_of_nil in Ht.
  - rewrite fmap_cons in Hnd. apply NoDup_cons in Hnd as [Hx Hnd]. simpl.
    destruct (keeps_other_ids taskId x) eqn:Hkeep.
    + apply keeps_other_ids_true in Hkeep. simpl. f_equal. apply IH; [done|].
      exists t. split; [|done].
      apply elem_of_cons in Ht as [->|Ht]; [done | done].
    + assert (id x = taskId) as Hxid.
      { destruct (decide (id x = taskId)) as [|Hne]; [done|].
        apply keeps_other_ids_true in Hne. congruence. }
      f_equal. rewrite filter_all_true; [done|].
      intros y Hy. apply keeps_other_ids_true. intros Hyid. apply Hx.
      rewrite Hxid, <- Hyid. by apply list_elem_of_fmap_2.
Qed.

(** X1. A confirmed delete whose transport call succeeds removes exactly
    the records of the given id: the others stay, in their order; with
    unique ids and the id present the list gets one shorter, and with the
    id absent it stays as it is.  When the transport call fails, [tasks] is
    unchanged and the delete error is on display. *)
Theorem deleteTask_confirmed
  (env : Env) (w : World TaskList.State) (taskId : TaskId) :
  confirm_answer env "Are you sure you want to delete this task?" = true →
  let before := TaskList.tasks (st w) in
  let w' := snd (TaskList.deleteTask taskId env w) in
  let after := TaskList.tasks (st w') in
  match fst (TasksApi.deleteTask taskId env w) with
  | inr _ =>
      (∀ t, t ∈ after ↔ t ∈ before ∧ id t ≠ taskId) ∧
      after `sublist_of` before ∧
      (NoDup (id <$> before) → (∃ t, t ∈ before ∧ id t = taskId) →
       length before = Datatypes.S (length after)) ∧
      ((∀ t, t ∈ before → id t ≠ taskId) → after = before) ∧
      TaskList.error (st w') = None
  | inl _ =>
      after = before ∧
      TaskList.error (st w') =
        Some "Failed to delete task. Please try again."
  end.
Proof.
  intros Hyes. js_unfold. rewrite Hyes. js_remote; try done.
  all: change (fun task : Task => negb (id_eq (id task) taskId))
         with (keeps_other_ids taskId).
  all: split; [intros t; apply remove_id_elem_of|].
  all: split; [apply filter_sublist|].
  all: split; [intros Hnd Hin; by apply remove_id_length|].
  all: split; [|done].
  all: intros Hnone; apply filter_all_true; intros x Hx;
       apply keeps_other_ids_true; by apply Hnone.
Qed.

Lemma deleteTask_confirmed_witness :
  let env := Sample.env_serving [] Sample.buy_milk in
  let w := Sample.world_of Sample.three_tasks None in
  length Sample.three_tasks
  = Datatypes.S (length (TaskList.tasks
                           (st (snd (TaskList.deleteTask (IdNum 2) env w))))).
Proof.
  intros env w.
  destruct (deleteTask_confirmed env w (IdNum 2) eq_refl)
    as (_ & _ & Hlen & _).
  apply Hlen.
  - apply (bool_decide_unpack _). vm_compute. exact I.
  - exists Sample.pay_rent. split; [|reflexivity]. right. left.
Defined.

(** ** What every operation does to the outside *)

(** X2. No handler of the list component lets an exception out: whatever
    the store answers and whatever the state is, each one ends normally. *)
Theorem handlers_never_throw
  (a : TaskListUI.Action) (env : Env) (w : World TaskList.State) :
  fst (TaskListUI.handle a env w) = inr tt.
Proof.
  destruct (controller_catches_everything env w)
    as (Hfetch & Hcreate & Hupdate & Hdelete).
  destruct a; simpl; try done.
  - unfold TaskListUI.onSubmit, bind, get. cbn [st].
    destruct (TaskList.editingTask (st w)); [apply Hupdate | apply Hcreate].
  - apply Hdelete.
  - unfold TaskListUI.onToggleStatus, TaskList.toggleTaskStatus, bind, get.
    cbn [st]. destruct (List.find _ _); [apply Hupdate | done].
Qed.

(** X3. Each transport operation sends exactly one request, whatever comes
    back (a network failure, an error status, a body that does not parse):
    it never retries, and it never touches the caller's state. *)
Theorem transport_sends_once {S : Type} (env : Env) (w : World S) :
  snd (TasksApi.fetchTasks env w)
  = mkWorld (st w) (log w ++ [Fetch GET_tasks])%list
      (Datatypes.S (clock w)) ∧
  (∀ payload,
     snd (TasksApi.createTask payload env w)
     = mkWorld (st w) (log w ++ [Fetch (POST_tasks payload)])%list
         (Datatypes.S (clock w))) ∧
  (∀ taskId patch,
     snd (TasksApi.updateTask taskId patch env w)
     = mkWorld (st w) (log w ++ [Fetch (PATCH_task taskId patch)])%list
         (Datatypes.S (clock w))) ∧
  (∀ taskId,
     snd (TasksApi.deleteTask taskId env w)
     = mkWorld (st w) (log w ++ [Fetch (DELETE_task taskId)])%list
         (Datatypes.S (clock w))).
Proof.
  split; [apply api_fetchTasks_world|].
  split; [intros; apply api_createTask_world|].
  split; intros; [apply api_updateTask_world | apply api_deleteTask_world].
Qed.

(** X4. What each controller operation does to the outside, in full: one
    request and no second attempt; then the success alert when the
    transport call succeeded (none for the refresh), or one console error
    carrying the very exception that was raised when it failed, never both.
    A delete first asks for confirmation and stops there when declined. *)
Theorem operations_report (env : Env) (w : World TaskList.State) :
  log (snd (TaskList.fetchTasks env w))
  = (log w ++ Fetch GET_tasks ::
       match fst (TasksApi.fetchTasks env w) with
       | inr _ => []
       | inl e => [ConsoleError "Error fetching tasks:" e]
       end)%list ∧
  (∀ taskData,
     let payload : JsObject :=
       <["createdAt" := date_now env (clock w)]> taskData in
     log (snd (TaskList.createTask taskData env w))
     = (log w ++ Fetch (POST_tasks payload) ::
          match fst (TasksApi.createTask payload env w) with
          | inr _ => [Alert "Task created successfully!"]
          | inl e => [ConsoleError "Error creating task:" e]
          end)%list) ∧
  (∀ taskId patch,
     log (snd (TaskList.updateTask taskId patch env w))
     = (log w ++ Fetch (PATCH_task taskId patch) ::
          match fst (TasksApi.updateTask taskId patch env w) with
          | inr _ => [Alert "Task updated successfully!"]
          | inl e => [ConsoleError "Error updating task:" e]
          end)%list) ∧
  (∀ taskId,
     log (snd (TaskList.deleteTask taskId env w))
     = (log w ++ Confirm "Are you sure you want to delete this task?" ::
          if confirm_answer env "Are you sure you want to delete this task?"
          then Fetch (DELETE_task taskId) ::
               match fst (TasksApi.deleteTask taskId env w) with
               | inr _ => [Alert "Task deleted successfully!"]
               | inl e => [ConsoleError "Error deleting task:" e]
               end
          else [])%list).
Proof.
  cbv zeta. repeat split; intros; js_unfold;
    try destruct (confirm_answer env _); js_project; try done;
    js_remote; by rewrite <- ?app_assoc.
Qed.

(** X5. An error left on display by an earlier operation never survives a
    refresh, a create, an update or a delete: the world after the operation
    is the same whatever the error was before. *)
Theorem operations_forget_previous_error
  (env : Env) (w : World TaskList.State) (e : option string) :
  snd (TaskList.fetchTasks env (with_error e w))
  = snd (TaskList.fetchTasks env w) ∧
  (∀ taskData,
     snd (TaskList.createTask taskData env (with_error e w))
     = snd (TaskList.createTask taskData env w)) ∧
  (∀ taskId patch,
     snd (TaskList.updateTask taskId patch env (with_error e w))
     = snd (TaskList.updateTask taskId patch env w)) ∧
  (∀ taskId,
     snd (TaskList.deleteTask taskId env (with_error e w))
     = snd (TaskList.deleteTask taskId env w)).
Proof.
  unfold with_error.
  repeat split; intros; js_unfold;
    try destruct (confirm_answer env _); js_project; try done;
    by js_remote.
Qed.

(** ** What the handlers leave alone *)

Ltac ui_cases :=
  repeat match goal with
    | |- context [match TaskList.editingTask ?s with _ => _ end] =>
        destruct (TaskList.editingTask s) eqn:?
    | |- context [match List.find ?f ?l with _ => _ end] =>
        destruct (List.find f l)
    | |- context [confirm_answer ?env ?m] =>
        destruct (confirm_answer env m)
    end;
  js_project; try js_remote.

(** X6. Frame of the handlers.  Only the two filter-bar setters change the
    filter and the search text; only the initial load changes the loading
    flag; opening, cancelling or dismissing something and typing into the
    filter bar never change [tasks] and never send a request. *)
Theorem handlers_frame
  (a : TaskListUI.Action) (env : Env) (w : World TaskList.State) :
  let w' := snd (TaskListUI.handle a env w) in
  match a with
  | TaskListUI.SetFilter v => TaskList.filter (st w') = v
  | _ => TaskList.filter (st w') = TaskList.filter (st w)
  end ∧
  match a with
  | TaskListUI.SetSearchTerm v => TaskList.searchTerm (st w') = v
  | _ => TaskList.searchTerm (st w') = TaskList.searchTerm (st w)
  end ∧
  match a with
  | TaskListUI.Mount => TaskList.loading (st w') = false
  | _ => TaskList.loading (st w') = TaskList.loading (st w)
  end ∧
  match a with
  | TaskListUI.Mount | TaskListUI.Submit _
  | TaskListUI.Delete _ | TaskListUI.ToggleStatus _ => True
  | _ => TaskList.tasks (st w') = TaskList.tasks (st w) ∧ log w' = log w
  end.
Proof. destruct a; ui_unfold; ui_cases; done. Qed.

(** X7. The form is closed by a create or an update only when the
    transport call succeeded; after a failed one it is as it was, with the
    record being edited still selected, so that the user can submit again.
    A successful update also ends the editing. *)
Theorem form_closes_only_on_success
  (env : Env) (w : World TaskList.State) :
  (∀ taskData,
     let payload : JsObject :=
       <["createdAt" := date_now env (clock w)]> taskData in
     let s' := st (snd (TaskList.createTask taskData env w)) in
     TaskList.editingTask s' = TaskList.editingTask (st w) ∧
     match fst (TasksApi.createTask payload env w) with
     | inr _ => TaskList.showForm s' = false
     | inl _ => TaskList.showForm s' = TaskList.showForm (st w)
     end) ∧
  (∀ taskId patch,
     let s' := st (snd (TaskList.updateTask taskId patch env w)) in
     match fst (TasksApi.updateTask taskId patch env w) with
     | inr _ =>
         TaskList.showForm s' = false ∧ TaskList.editingTask s' = None
     | inl _ =>
         TaskList.showForm s' = TaskList.showForm (st w) ∧
         TaskList.editingTask s' = TaskList.editingTask (st w)
     end).
Proof. cbv zeta. split; intros; js_unfold; by js_remote. Qed.

(** ** How the operations compose *)

Lemma replace_by_id_twice (taskId : TaskId) (updatedTask : Task)
  (l : list Task) :
  let f := fun t => if id_eq (id t) taskId then updatedTask else t in
  List.map f (List.map f l) = List.map f l.
Proof.
  intros f. rewrite List.map_map. apply List.map_ext. intros t. unfold f.
  destruct (id_eq (id t) taskId) eqn:Ht; [|by rewrite Ht].
  by destruct (id_eq (id updatedTask) taskId).
Qed.

Lemma find_after_remove (taskId : TaskId) (l : list Task) :
  List.find (fun t => id_eq (id t) taskId)
            (List.filter (fun task => negb (id_eq (id task) taskId)) l)
  = None.
Proof.
  induction l as [|x l IH]; [done|]. simpl.
  destruct (id_eq (id x) taskId) eqn:Hx; simpl; [done|]. by rewrite Hx.
Qed.

(** X8. Running the same update a second time against a store that gives
    the same answer changes nothing in [tasks]: the replacement by id is
    idempotent, whether or not the returned record carries the id asked
    for. *)
Theorem updateTask_twice
  (env : Env) (w : World TaskList.State) (taskId : TaskId)
  (patch : JsObject) :
  let w1 := snd (TaskList.updateTask taskId patch env w) in
  let w2 := snd (TaskList.updateTask taskId patch env w1) in
  TaskList.tasks (st w2) = TaskList.tasks (st w1).
Proof.
  js_unfold. js_remote; try done. apply replace_by_id_twice.
Qed.

(** X9. Creating a record and then deleting it, by the id the server gave
    it, gives back the list as it was, provided that id was not in use. *)
Theorem create_then_delete_restores
  (env : Env) (w : World TaskList.State) (taskData : JsObject)
  (newTask : Task) :
  fst (TasksApi.createTask
         (<["createdAt" := date_now env (clock w)]> taskData) env w)
  = inr newTask →
  fst (TasksApi.deleteTask (id newTask) env w) = inr true →
  confirm_answer env "Are you sure you want to delete this task?" = true →
  (∀ t, t ∈ TaskList.tasks (st w) → id t ≠ id newTask) →
  let w1 := snd (TaskList.createTask taskData env w) in
  let w2 := snd (TaskList.deleteTask (id newTask) env w1) in
  TaskList.tasks (st w1) = newTask :: TaskList.tasks (st w) ∧
  TaskList.tasks (st w2) = TaskList.tasks (st w).
Proof.
  intros Hcreate Hdelete Hyes Hfresh. js_unfold. rewrite Hyes.
  js_remote; simplify_eq. split; [done|].
  js_remote; simplify_eq; simpl;
    unfold id_eq at 1; rewrite bool_decide_eq_true_2 by done; simpl;
    apply filter_all_true; intros x Hx;
    apply (keeps_other_ids_true (id newTask) x); by apply Hfresh.
Qed.

Lemma create_then_delete_restores_witness :
  let env := Sample.env_serving [] Sample.call_bob in
  let w := Sample.world_of [Sample.buy_milk; Sample.pay_rent] None in
  TaskList.tasks
    (st (snd (TaskList.deleteTask (IdStr "a3f") env
                (snd (TaskList.createTask {[ "title" := "Call Bob" ]}
                        env w)))))
  = [Sample.buy_milk; Sample.pay_rent].
Proof.
  intros env w.
  refine (proj2 (create_then_delete_restores env w {[ "title" := "Call Bob" ]}
                   Sample.call_bob eq_refl eq_refl eq_refl _)).
  apply Forall_forall. apply (bool_decide_unpack _). vm_compute. exact I.
Defined.

(** X10. After a confirmed delete that succeeded, toggling the status of
    the deleted id does nothing at all: no record is found, no request goes
    out, nothing is displayed. *)
Theorem toggle_after_delete_is_noop
  (env : Env) (w : World TaskList.State) (taskId : TaskId) :
  confirm_answer env "Are you sure you want to delete this task?" = true →
  fst (TasksApi.deleteTask taskId env w) = inr true →
  let w' := snd (TaskList.deleteTask taskId env w) in
  TaskList.toggleTaskStatus taskId env w' = (inr tt, w').
Proof.
  intros Hyes Hdelete. js_unfold. rewrite Hyes.
  js_remote; simplify_eq; js_project; by rewrite find_after_remove.
Qed.

Lemma toggle_after_delete_is_noop_witness :
  let env := Sample.env_serving [] Sample.buy_milk in
  let w' := snd (TaskList.deleteTask (IdNum 2) env
                   (Sample.world_of Sample.three_tasks None)) in
  TaskList.toggleTaskStatus (IdNum 2) env w' = (inr tt, w').
Proof.
  exact (toggle_after_delete_is_noop (Sample.env_serving [] Sample.buy_milk)
           (Sample.world_of Sample.three_tasks None) (IdNum 2)
           eq_refl eq_refl).
Defined.

(** ** Unique ids *)

Lemma replace_by_id_ids (taskId : TaskId) (updatedTask : Task)
  (l : list Task) :
  id updatedTask = taskId →
  id <$> List.map (fun t => if id_eq (id t) taskId then updatedTask else t) l
  = id <$> l.
Proof.
  intros Hid. induction l as [|x l IH]; [done|].
  cbn [List.map]. rewrite !fmap_cons. f_equal; [|exact IH].
  destruct (id_eq (id x) taskId) eqn:Hx; [|done].
  apply id_eq_true in Hx. congruence.
Qed.

(** X11. Unique ids stay unique: after a delete, whatever its outcome;
    after an update, when the server returns the record under the id asked
    for (the ids and their order are then the same); after a create, when
    the server assigns an id that is not in the list. *)
Theorem unique_ids_preserved (env : Env) (w : World TaskList.State) :
  NoDup (id <$> TaskList.tasks (st w)) →
  (∀ taskId,
     NoDup (id <$> TaskList.tasks
                     (st (snd (TaskList.deleteTask taskId env w))))) ∧
  (∀ taskId patch,
     match fst (TasksApi.updateTask taskId patch env w) with
     | inr updatedTask =>
         id updatedTask = taskId →
         id <$> TaskList.tasks
                  (st (snd (TaskList.updateTask taskId patch env w)))
         = id <$> TaskList.tasks (st w)
     | inl _ =>
         NoDup (id <$> TaskList.tasks
                         (st (snd (TaskList.updateTask taskId patch env w))))
     end) ∧
  (∀ taskData,
     match fst (TasksApi.createTask
                  (<["createdAt" := date_now env (clock w)]> taskData)
                  env w) with
     | inr newTask =>
         id newTask ∉ id <$> TaskList.tasks (st w) →
         NoDup (id <$> TaskList.tasks
                         (st (snd (TaskList.createTask taskData env w))))
     | inl _ =>
         NoDup (id <$> TaskList.tasks
                         (st (snd (TaskList.createTask taskData env w))))
     end).
Proof.
  intros Hnd. split; [|split].
  - intros taskId. js_unfold. destruct (confirm_answer env _); [|done].
    js_remote; try done;
      (eapply sublist_NoDup; [exact Hnd|]);
      apply fmap_sublist, filter_sublist.
  - intros taskId patch. js_unfold. js_remote; try done.
    intros Hid. by apply replace_by_id_ids.
  - intros taskData. js_unfold. js_remote; try done.
    intros Hfresh. rewrite fmap_cons. by apply NoDup_cons.
Qed.

Lemma unique_ids_preserved_witness :
  NoDup (id <$> TaskList.tasks
                  (st (snd (TaskList.deleteTask (IdNum 1)
                              (Sample.env_serving [] Sample.buy_milk)
                              (Sample.world_of Sample.three_tasks None))))).
Proof.
  refine (proj1 (unique_ids_preserved (Sample.env_serving [] Sample.buy_milk)
                   (Sample.world_of Sample.three_tasks None) _) (IdNum 1)).
  apply (bool_decide_unpack _). vm_compute. exact I.
Defined.

(** ** The transport client, again *)

Lemma or_default_nonempty (message fallback : string) :
  fallback ≠ "" → or_default message fallback ≠ "".
Proof.
  intros Hf. rewrite or_default_decide. by destruct (decide (message = "")).
Qed.

(** X12. The detail of a raised request failure is never the empty string:
    an empty response body is replaced by the default message of the
    operation. *)
Theorem request_failure_has_detail
  {S : Type} (env : Env) (w : World S) (message : string) :
  (fst (TasksApi.fetchTasks env w) = inl (Error message) → message ≠ "") ∧
  (∀ payload,
     fst (TasksApi.createTask payload env w) = inl (Error message) →
     message ≠ "") ∧
  (∀ taskId patch,
     fst (TasksApi.updateTask taskId patch env w) = inl (Error message) →
     message ≠ "") ∧
  (∀ taskId,
     fst (TasksApi.deleteTask taskId env w) = inl (Error message) →
     message ≠ "").
Proof.
  repeat split; intros; js_unfold; revert H; js_remote; intros H;
    simplify_eq; by apply or_default_nonempty.
Qed.

Lemma request_failure_has_detail_witness :
  "Request failed" ≠ "" ∧
  fst (TasksApi.fetchTasks (Sample.env_refusing "")
         (Sample.world_of [] None)) = inl (Error "Request failed").
Proof.
  split; [|reflexivity].
  exact (proj1 (request_failure_has_detail (Sample.env_refusing "")
                  (Sample.world_of [] None) "Request failed") eq_refl).
Defined.

(** ** The filtered view, again *)

Lemma filter_implies_sublist {A} (f g : A → bool) (l : list A) :
  (∀ x, f x = true → g x = true) →
  List.filter f l `sublist_of` List.filter g l.
Proof.
  intros Hfg. induction l as [|x l IH]; simpl; [constructor|].
  destruct (f x) eqn:Hf.
  - rewrite (Hfg x Hf). by constructor.
  - destruct (g x); [by constructor | done].
Qed.

Lemma filter_filter_and {A} (f g : A → bool) (l : list A) :
  List.filter f (List.filter g l) = List.filter (fun x => f x && g x) l.
Proof.
  induction l as [|x l IH]; simpl; [done|].
  destruct (g x) eqn:Hg; simpl.
  - destruct (f x); simpl; by rewrite IH.
  - by rewrite andb_false_r.
Qed.

Lemma string_app_assoc (a b c : string) :
  (a +:+ b) +:+ c = a +:+ (b +:+ c).
Proof.
  induction a as [|x a IH]; [done|].
  change (String x ((a +:+ b) +:+ c) = String x (a +:+ (b +:+ c))).
  by rewrite IH.
Qed.

Lemma substring_of_trans (a b c : string) :
  JsString.substring_of a b → JsString.substring_of b c →
  JsString.substring_of a c.
Proof.
  intros (p1 & s1 & ->) (p2 & s2 & ->).
  exists (p2 +:+ p1), (s1 +:+ s2).
  by rewrite !string_app_assoc.
Qed.

Section FilteredViewAlgebra.

Variable toLowerCase : string → string.
Hypothesis toLowerCase_empty : toLowerCase "" = "".
Implicit Types (tasks : list Task) (filter searchTerm : string).

Lemma matchesSearch_empty (t : Task) :
  TaskList.matchesSearch toLowerCase "" t = true.
Proof.
  unfold TaskList.matchesSearch.
  by rewrite toLowerCase_empty, !includes_empty.
Qed.

Lemma filteredTasks_by_filter_then_search tasks filter searchTerm :
  TaskList.filteredTasks toLowerCase
    (TaskList.filteredTasks toLowerCase tasks filter "") "all" searchTerm
  = TaskList.filteredTasks toLowerCase tasks filter searchTerm.
Proof.
  unfold TaskList.filteredTasks. rewrite filter_filter_and.
  apply filter_ext. intros t. rewrite matchesSearch_empty.
  unfold TaskList.matchesFilter at 1. simpl.
  by rewrite andb_true_r, andb_comm.
Qed.

Lemma filteredTasks_by_search_then_filter tasks filter searchTerm :
  TaskList.filteredTasks toLowerCase
    (TaskList.filteredTasks toLowerCase tasks "all" searchTerm) filter ""
  = TaskList.filteredTasks toLowerCase tasks filter searchTerm.
Proof.
  unfold TaskList.filteredTasks. rewrite filter_filter_and.
  apply filter_ext. intros t. rewrite matchesSearch_empty.
  unfold TaskList.matchesFilter at 2. simpl.
  by rewrite andb_true_r.
Qed.

End FilteredViewAlgebra.

(** X13. With the selector ["all"] and an empty search text the view is the
    whole of [tasks], in its order, when lower-casing the empty string gives
    the empty string. *)
Theorem filteredTasks_all_empty_is_tasks
  (toLowerCase : string → string) (tasks : list Task) :
  toLowerCase "" = "" →
  TaskList.filteredTasks toLowerCase tasks "all" "" = tasks.
Proof. intros Hempty. by apply filteredTasks_all_empty. Qed.

Lemma filteredTasks_all_empty_is_tasks_witness :
  TaskList.filteredTasks JsString.toLowerCase_ascii Sample.three_tasks
                         "all" ""
  = Sample.three_tasks.
Proof.
  exact (filteredTasks_all_empty_is_tasks JsString.toLowerCase_ascii
           Sample.three_tasks eq_refl).
Defined.

(** X14. The selector and the search text act independently: selecting
    first and searching in the result, or searching first and selecting in
    the result, gives the view of both at once; and viewing a view again
    under the same settings changes nothing. *)
Theorem filteredTasks_composes
  (toLowerCase : string → string) (tasks : list Task)
  (filter searchTerm : string) :
  toLowerCase "" = "" →
  let view := TaskList.filteredTasks toLowerCase in
  view (view tasks filter "") "all" searchTerm = view tasks filter searchTerm ∧
  view (view tasks "all" searchTerm) filter "" = view tasks filter searchTerm ∧
  view (view tasks filter searchTerm) filter searchTerm
  = view tasks filter searchTerm.
Proof.
  intros Hempty view. subst view.
  split; [by apply filteredTasks_by_filter_then_search|].
  split; [by apply filteredTasks_by_search_then_filter|].
  unfold TaskList.filteredTasks. rewrite filter_filter_and.
  apply filter_ext. intros t. apply andb_diag.
Qed.

Lemma filteredTasks_composes_witness :
  let view := TaskList.filteredTasks JsString.toLowerCase_ascii in
  view (view Sample.three_tasks "pending" "") "all" "bo"
  = view Sample.three_tasks "pending" "bo".
Proof.
  exact (proj1 (filteredTasks_composes JsString.toLowerCase_ascii
                  Sample.three_tasks "pending" "bo" eq_refl)).
Defined.

(** X15. Narrowing.  A search text whose lower-cased form contains that of
    another shows a subsequence of what the other shows; and any selector
    shows a subsequence of what ["all"] shows under the same search. *)
Theorem filteredTasks_narrows
  (toLowerCase : string → string) (tasks : list Task)
  (filter shorter longer : string) :
  JsString.substring_of (toLowerCase shorter) (toLowerCase longer) →
  TaskList.filteredTasks toLowerCase tasks filter longer
    `sublist_of` TaskList.filteredTasks toLowerCase tasks filter shorter ∧
  TaskList.filteredTasks toLowerCase tasks filter shorter
    `sublist_of` TaskList.filteredTasks toLowerCase tasks "all" shorter.
Proof.
  intros Hsub. unfold TaskList.filteredTasks.
  split; apply filter_implies_sublist; intros t;
    rewrite !andb_true_iff; intros [Hf Hs]; split; try done.
  apply matchesSearch_true. apply matchesSearch_true in Hs.
  unfold Spec.contains_ci in *.
  destruct Hs as [Hs|Hs]; [left|right]; by eapply substring_of_trans.
Qed.

Lemma filteredTasks_narrows_witness :
  TaskList.filteredTasks JsString.toLowerCase_ascii Sample.three_tasks
                         "pending" "Milk"
    `sublist_of`
  TaskList.filteredTasks JsString.toLowerCase_ascii Sample.three_tasks
                         "pending" "MI".
Proof.
  refine (proj1 (filteredTasks_narrows JsString.toLowerCase_ascii
                   Sample.three_tasks "pending" "MI" "Milk" _)).
  by exists "", "lk".
Defined.

(** ** The page and its handlers *)

Lemma requests_app (l1 l2 : list Event) :
  requests (l1 ++ l2) = (requests l1 ++ requests l2)%list.
Proof. apply omap_app. Qed.

Lemma updateTask_sends_patch (env : Env) (w : World TaskList.State)
  (taskId : TaskId) (patch : JsObject) :
  requests (log (snd (TaskList.updateTask taskId patch env w)))
  = (requests (log w) ++ [PATCH_task taskId patch])%list.
Proof.
  js_unfold. js_remote; by rewrite !requests_app, <- app_assoc.
Qed.


Lemma find_by_id_unique (l : list Task) (task : Task) :
  NoDup (id <$> l) → task ∈ l →
  List.find (fun t => id_eq (id t) (id task)) l = Some task.
Proof.
  induction l as [|x l IH]; intros Hnd Hin.
  - by apply elem_of_nil in Hin.
  - rewrite fmap_cons in Hnd. apply NoDup_cons in Hnd as [Hx Hnd]. simpl.
    destruct (id_eq (id x) (id task)) eqn:Heq.
    + apply id_eq_true in Heq.
      apply elem_of_cons in Hin as [->|Hin]; [done|].
      destruct Hx. rewrite Heq. by apply list_elem_of_fmap_2.
    + apply elem_of_cons in Hin as [->|Hin]; [|by apply IH].
      unfold id_eq in Heq. by rewrite bool_decide_eq_true_2 in Heq.
Qed.





(** X17. With unique ids, the status toggle of a card that is on display
    always finds its record: it sends exactly one [PATCH], to the id of
    that card, with the status of that very card flipped. *)
Theorem card_toggle_patches_own_record
  (toLowerCase : string → string) (env : Env) (w : World TaskList.State)
  (task : Task) :
  NoDup (id <$> TaskList.tasks (st w)) →
  task ∈ TaskList.filteredTasks toLowerCase (TaskList.tasks (st w))
           (TaskList.filter (st w)) (TaskList.searchTerm (st w)) →
  requests (log (snd (TaskListUI.onToggleStatus task env w)))
  = (requests (log w)
     ++ [PATCH_task (id task)
           {[ "status" := if decide (status task = "completed")
                          then "pending" else "completed" ]}])%list.
Proof.
  intros Hnd Hin. apply elem_of_filteredTasks in Hin as [Hin _].
  unfold TaskListUI.onToggleStatus, TaskList.toggleTaskStatus, bind, get.
  cbn [st]. rewrite (find_by_id_unique _ _ Hnd Hin).
  rewrite updateTask_sends_patch. unfold str_eq.
  rewrite (bool_decide_decide (status task = "completed")).
  by destruct (decide _).
Qed.

Lemma card_toggle_patches_own_record_witness :
  requests (log (snd (TaskListUI.onToggleStatus Sample.pay_rent
                        (Sample.env_serving [] Sample.pay_rent)
                        (Sample.world_of Sample.three_tasks None))))
  = [PATCH_task (IdNum 2) {[ "status" := "pending" ]}].
Proof.
  refine (card_toggle_patches_own_record JsString.toLowerCase_ascii
            (Sample.env_serving [] Sample.pay_rent)
            (Sample.world_of Sample.three_tasks None) Sample.pay_rent _ _).
  - apply (bool_decide_unpack _). vm_compute. exact I.
  - right. left.
Defined.





(** ** The statistics component, again *)

Lemma div_eucl_pair (a b : Z) : Z.div_eucl a b = ((a / b)%Z, (a mod b)%Z).
Proof. unfold Z.div, Z.modulo. by destruct (Z.div_eucl a b). Qed.

Lemma div_self (s : bool) (m : positive) (e : Z) :
  JsNumber.div (S754_finite s m e) (S754_finite s m e) = JsNumber.of_Z 1.
Proof.
  unfold JsNumber.div, SFdiv, SFdiv_core_binary.
  rewrite Z.sub_diag, Z.sub_diag.
  change (fexp JsNumber.prec JsNumber.emax 0) with (-53)%Z.
  change (Z.min (-53) 0) with (-53)%Z. change (0 - -53)%Z with 53%Z.
  cbv iota beta. rewrite Z.shiftl_mul_pow2 by done.
  rewrite div_eucl_pair.
  rewrite Z.mul_comm, Z.div_mul, Z.mod_mul by done.
  assert (Hloc : new_location (Z.pos m) 0 = loc_Exact).
  { unfold new_location. by destruct (Z.even (Z.pos m)). }
  rewrite Hloc. by destruct s.
Qed.

Lemma digits2_pos_size (p : positive) : digits2_pos p = Pos.size p.
Proof. induction p; simpl; by rewrite ?IHp. Qed.

Lemma digits2_pos_iter_xO (p k : positive) :
  digits2_pos (Pos.iter xO p k) = (digits2_pos p + k)%positive.
Proof.
  induction k as [|k IH] using Pos.peano_ind.
  - simpl. lia.
  - rewrite Pos.iter_succ. simpl. rewrite IH. lia.
Qed.

Lemma of_Z_pos_finite (p : positive) :
  (Z.pos p < 2 ^ 53)%Z →
  ∃ m e, JsNumber.of_Z (Z.pos p) = S754_finite false m e.
Proof.
  intros Hp.
  assert (Hd : (Z.pos (digits2_pos p) <= 53)%Z).
  { rewrite digits2_pos_size.
    pose proof (Pos.size_le p) as Hle.
    destruct (Z_le_gt_dec (Z.pos (Pos.size p)) 53) as [|Hgt]; [done|].
    exfalso.
    assert (2 ^ 54 <= 2 ^ Z.pos (Pos.size p))%Z
      by (apply Z.pow_le_mono_r; lia).
    assert (Z.pos (2 ^ Pos.size p) <= Z.pos p~0)%Z by exact Hle.
    rewrite Pos2Z.inj_pow in *. lia. }
  set (d := digits2_pos p) in *.
  unfold JsNumber.of_Z, binary_normalize, binary_round.
  fold d. rewrite Z.add_0_r.
  assert (Hfexp : fexp JsNumber.prec JsNumber.emax (Z.pos d) = (Z.pos d - 53)%Z).
  { unfold fexp, emin, JsNumber.prec, JsNumber.emax. lia. }
  rewrite Hfexp.
  assert (Hshl : ∃ mz, shl_align p 0 (Z.pos d - 53) = (mz, (Z.pos d - 53)%Z)
                       ∧ Z.pos (digits2_pos mz) = 53%Z).
  { unfold shl_align. rewrite Z.sub_0_r.
    destruct (Z.pos d - 53)%Z as [|q|q] eqn:Hq; [| lia |].
    - exists p. split; [done|]. fold d. lia.
    - exists (Pos.iter xO p q). split; [done|].
      rewrite digits2_pos_iter_xO. fold d. lia. }
  destruct Hshl as (mz & -> & Hmz).
  unfold binary_round_aux, shr_fexp. simpl Zdigits2. rewrite Hmz.
  replace (53 + (Z.pos d - 53))%Z with (Z.pos d) by lia.
  rewrite Hfexp, Z.sub_diag. simpl.
  rewrite Hmz. replace (53 + (Z.pos d - 53))%Z with (Z.pos d) by lia.
  rewrite Hfexp, Z.sub_diag. simpl.
  destruct (Z.leb_spec (Z.pos d - 53) (JsNumber.emax - JsNumber.prec)) as [|Hx].
  - by eauto.
  - unfold JsNumber.emax, JsNumber.prec in Hx. lia.
Qed.

Lemma js_percentage_none (total : Z) :
  (0 < total < 2 ^ 53)%Z → js_percentage 0 total = JsNumber.of_Z 0.
Proof.
  intros [Hpos Hlt]. unfold js_percentage.
  destruct (Z.ltb_spec 0 total) as [_|]; [|lia].
  destruct total as [|p|p]; try lia.
  destruct (of_Z_pos_finite p Hlt) as (m & e & ->). reflexivity.
Qed.

Lemma js_percentage_all (total : Z) :
  (0 < total < 2 ^ 53)%Z → js_percentage total total = JsNumber.of_Z 100.
Proof.
  intros [Hpos Hlt]. unfold js_percentage.
  destruct (Z.ltb_spec 0 total) as [_|]; [|lia].
  destruct total as [|p|p]; try lia.
  destruct (of_Z_pos_finite p Hlt) as (m & e & ->).
  rewrite div_self. by vm_compute.
Qed.

Lemma filter_length_all {A} (f : A → bool) (l : list A) :
  length (List.filter f l) = length l ↔ ∀ x, x ∈ l → f x = true.
Proof.
  induction l as [|x l IH]; simpl.
  - split; [intros _ y Hy; by apply elem_of_nil in Hy | done].
  - pose proof (filter_length_le f l) as Hle.
    destruct (f x) eqn:Hx; simpl.
    + rewrite Nat.succ_inj_wd, IH. split.
      * intros Hall y [->|Hy]%elem_of_cons; [done | by apply Hall].
      * intros Hall y Hy. apply Hall. by right.
    + split; [lia|]. intros Hall.
      rewrite (Hall x) in Hx by by left. done.
Qed.

Lemma filter_length_none {A} (f : A → bool) (l : list A) :
  length (List.filter f l) = 0%nat ↔ ∀ x, x ∈ l → f x = false.
Proof.
  induction l as [|x l IH]; simpl.
  - split; [intros _ y Hy; by apply elem_of_nil in Hy | done].
  - destruct (f x) eqn:Hx; simpl.
    + split; [done|]. intros Hall.
      rewrite (Hall x) in Hx by by left. done.
    + rewrite IH. split.
      * intros Hall y [->|Hy]%elem_of_cons; [done | by apply Hall].
      * intros Hall y Hy. apply Hall. by right.
Qed.

(** X20. What the statistics page shows once its load has ended: the four
    figures computed from the fetched list after a success, the error
    notice after a failure, and the spinner in neither case. *)
Theorem stats_page_after_mount (env : Env) :
  let w0 := mkWorld Stats.initial [] 0 in
  StatsUI.render (st (snd (StatsUI.mount env w0)))
  = match fst (TasksApi.fetchTasks env w0) with
    | inr tasks =>
        let total := Z.of_nat (length tasks) in
        let completed :=
          Z.of_nat (length (List.filter
                              (fun task => str_eq (status task) "completed")
                              tasks)) in
        StatsUI.Cards (Stats.mkStats total completed (total - completed)
                         (js_percentage completed total))
    | inl _ =>
        StatsUI.ErrorAlert
          "Unable to load statistics. Please try again later."
    end.
Proof. intros w0. subst w0. ui_unfold. by js_remote. Qed.

(** X21. The figures stored by a successful [fetchStats] are consistent:
    [completed] is between 0 and [total], [completed + pending = total],
    [completed] equals [total] exactly when every record is completed and
    is 0 exactly when none is.  A failed [fetchStats] keeps the figures it
    had. *)
Theorem fetchStats_figures_consistent
  (env : Env) (w : World Stats.State) :
  let v := Stats.stats (st (snd (Stats.fetchStats env w))) in
  match fst (TasksApi.fetchTasks env w) with
  | inr tasks =>
      Stats.total v = Z.of_nat (length tasks) ∧
      (0 ≤ Stats.completed v ≤ Stats.total v)%Z ∧
      (Stats.completed v + Stats.pending v = Stats.total v)%Z ∧
      (Stats.completed v = Stats.total v ↔
       ∀ t, t ∈ tasks → status t = "completed") ∧
      (Stats.completed v = 0%Z ↔
       ∀ t, t ∈ tasks → status t ≠ "completed")
  | inl _ => v = Stats.stats (st w)
  end.
Proof.
  intros v. subst v.
  destruct (fst (TasksApi.fetchTasks env w)) as [e|tasks] eqn:Hreply.
  - by destruct (fetchStats_failure env w e Hreply).
  - rewrite (fetchStats_success env w tasks Hreply). cbn [Stats.total
      Stats.completed Stats.pending].
    pose proof (completed_le_total tasks) as Hle.
    split; [done|]. split; [lia|]. split; [lia|]. split.
    + rewrite Nat2Z.inj_iff, filter_length_all.
      by setoid_rewrite str_eq_true.
    + change 0%Z with (Z.of_nat 0). rewrite Nat2Z.inj_iff, filter_length_none.
      split; intros Hall t Ht; specialize (Hall t Ht).
      * intros Hc. apply str_eq_true in Hc. congruence.
      * destruct (str_eq _ _) eqn:Hc; [|done].
        by apply str_eq_true in Hc.
Qed.

(** X22. For a non-empty list (of fewer than 2^53 records) the completion
    rate stored by a successful [fetchStats] is exactly 0 when no record is
    completed and exactly 100 when every record is: the floating-point
    division and multiplication lose nothing at the two ends. *)
Theorem completionRate_extremes
  (env : Env) (w : World Stats.State) (tasks : list Task) :
  fst (TasksApi.fetchTasks env w) = inr tasks →
  tasks ≠ [] → (Z.of_nat (length tasks) < 2 ^ 53)%Z →
  let v := Stats.stats (st (snd (Stats.fetchStats env w))) in
  ((∀ t, t ∈ tasks → status t ≠ "completed") →
   Stats.completionRate v = JsNumber.of_Z 0) ∧
  ((∀ t, t ∈ tasks → status t = "completed") →
   Stats.completionRate v = JsNumber.of_Z 100).
Proof.
  intros Hreply Hne Hlt v. subst v.
  rewrite (fetchStats_success env w tasks Hreply). cbn [Stats.completionRate].
  assert (0 < Z.of_nat (length tasks))%Z by (destruct tasks; [done | simpl; lia]).
  split; intros Hall.
  - replace (length (List.filter _ tasks)) with 0%nat.
    + by apply js_percentage_none.
    + symmetry. apply filter_length_none. intros t Ht.
      destruct (str_eq _ _) eqn:Hc; [|done].
      apply str_eq_true in Hc. by destruct (Hall t Ht).
  - replace (length (List.filter _ tasks)) with (length tasks).
    + by apply js_percentage_all.
    + symmetry. apply filter_length_all. intros t Ht.
      apply str_eq_true. by apply Hall.
Qed.

Lemma completionRate_extremes_witness :
  Stats.completionRate
    (Stats.stats
       (st (snd (Stats.fetchStats
                   (Sample.env_serving [Sample.pay_rent] Sample.buy_milk)
                   (mkWorld Stats.initial [] 0)))))
  = JsNumber.of_Z 100.
Proof.
  refine (proj2 (completionRate_extremes
                   (Sample.env_serving [Sample.pay_rent] Sample.buy_milk)
                   (mkWorld Stats.initial [] 0) [Sample.pay_rent]
                   eq_refl _ _) _).
  - discriminate.
  - reflexivity.
  - intros t Ht. apply list_elem_of_singleton in Ht. by subst t.
Defined.

(** X23. For every fetched list of fewer than 40 records the completion
    rate stored by [fetchStats] is the exactly rounded percentage, ties
    going up. *)
Theorem completionRate_exact_below_40
  (env : Env) (w : World Stats.State) (tasks : list Task) :
  fst (TasksApi.fetchTasks env w) = inr tasks →
  (length tasks < 40)%nat →
  let v := Stats.stats (st (snd (Stats.fetchStats env w))) in
  Stats.completionRate v
  = JsNumber.of_Z (Spec.completionRate (Stats.completed v) (Stats.total v)).
Proof.
  intros Hreply Hlt v. subst v.
  rewrite (fetchStats_success env w tasks Hreply).
  cbn [Stats.completionRate Stats.completed Stats.total].
  pose proof (completed_le_total tasks).
  apply js_percentage_exact_below_40; lia.
Qed.

Lemma completionRate_exact_below_40_witness :
  Stats.completionRate
    (Stats.stats
       (st (snd (Stats.fetchStats
                   (Sample.env_serving Sample.five_tasks Sample.buy_milk)
                   (mkWorld Stats.initial [] 0)))))
  = JsNumber.of_Z 40.
Proof.
  refine (completionRate_exact_below_40
            (Sample.env_serving Sample.five_tasks Sample.buy_milk)
            (mkWorld Stats.initial [] 0) Sample.five_tasks eq_refl _).
  simpl. lia.
Defined.

(** ** Doing it again *)

Lemma filter_twice {A} (f : A → bool) (l : list A) :
  List.filter f (List.filter f l) = List.filter f l.
Proof.
  rewrite filter_filter_and. apply filter_ext. intros x. apply andb_diag.
Qed.

(** X24. A refresh or a delete repeated against a store that answers the
    same way leaves the state as the first one left it: the second refresh
    loads the same list or fails the same way, and the second delete finds
    nothing more to remove. *)
Theorem refresh_and_delete_twice
  (env : Env) (w : World TaskList.State) :
  (let w1 := snd (TaskList.fetchTasks env w) in
   st (snd (TaskList.fetchTasks env w1)) = st w1) ∧
  (∀ taskId,
     let w1 := snd (TaskList.deleteTask taskId env w) in
     st (snd (TaskList.deleteTask taskId env w1)) = st w1).
Proof.
  split; [|intros taskId]; js_unfold.
  - by js_remote.
  - destruct (confirm_answer env _); [|done].
    js_remote; try done; by rewrite filter_twice.
Qed.
